(** * Extract-Build knowledge-graph pipeline: parser, validation loop, orchestrator

    Shallow embedding of [kg_builder/prompts/prompting.py],
    [kg_builder/utils.py], [kg_builder/engine.py], [kg_builder/extractor.py],
    [kg_builder/builder.py] and [kg_builder/workflow.py].

    Python [str] values are modelled as [string] restricted to ASCII text:
    [lower], [upper] and [strip] below follow CPython on code points below 128
    and leave other characters alone.  Python tuples of strings are lists of
    strings.  Exceptions are an explicit result type. *)

From Stdlib Require Import String Ascii List Bool Arith ZArith Lia Permutation.
Import ListNotations.
Open Scope string_scope.
Open Scope list_scope.
Open Scope nat_scope.

Infix "+++" := String.append (right associativity, at level 60).

Set Implicit Arguments.

(** ** Exceptions and results *)

Inductive exn :=
| IndexError
| RetryError
| AttributeError
| OracleFailure (reason : string).

Inductive pyres (A : Type) :=
| Ok (a : A)
| Raise (e : exn).
Arguments Ok {A} a.
Arguments Raise {A} e.

Definition pybind {A B} (m : pyres A) (k : A -> pyres B) : pyres B :=
  match m with
  | Ok a => k a
  | Raise e => Raise e
  end.

Declare Scope py_scope.
Delimit Scope py_scope with py.
Notation "x <- m ;; k" := (pybind m (fun x => k))
  (at level 61, m at next level, right associativity) : py_scope.

(** ** Python built-ins on strings and sequences *)

Module Py.

Definition nl : string := String (ascii_of_nat 10) "".

(** [seq[i]] with Python's negative indices. *)
Definition getitem {A} (l : list A) (i : Z) : pyres A :=
  let n := Z.of_nat (length l) in
  let j := if (i <? 0)%Z then (i + n)%Z else i in
  if ((j <? 0) || (n <=? j))%Z then Raise IndexError
  else match nth_error l (Z.to_nat j) with
       | Some a => Ok a
       | None => Raise IndexError
       end.

(** [str.isspace] on ASCII: TAB..CR, FS..US and the space. *)
Definition is_space (c : ascii) : bool :=
  let n := nat_of_ascii c in
  ((9 <=? n) && (n <=? 13)) || ((28 <=? n) && (n <=? 32)).

Definition lower_char (c : ascii) : ascii :=
  let n := nat_of_ascii c in
  if (65 <=? n) && (n <=? 90) then ascii_of_nat (n + 32) else c.

Definition upper_char (c : ascii) : ascii :=
  let n := nat_of_ascii c in
  if (97 <=? n) && (n <=? 122) then ascii_of_nat (n - 32) else c.

Fixpoint map_chars (f : ascii -> ascii) (s : string) : string :=
  match s with
  | EmptyString => EmptyString
  | String c s' => String (f c) (map_chars f s')
  end.

Definition lower : string -> string := map_chars lower_char.
Definition upper : string -> string := map_chars upper_char.

Fixpoint lstrip (s : string) : string :=
  match s with
  | EmptyString => EmptyString
  | String c s' => if is_space c then lstrip s' else s
  end.

Fixpoint rstrip (s : string) : string :=
  match s with
  | EmptyString => EmptyString
  | String c s' =>
      match rstrip s' with
      | EmptyString => if is_space c then EmptyString else String c EmptyString
      | r => String c r
      end
  end.

Definition strip (s : string) : string := rstrip (lstrip s).

(** [sub in s]. *)
Fixpoint contains (sub s : string) : bool :=
  String.prefix sub s ||
  match s with
  | EmptyString => false
  | String _ s' => contains sub s'
  end.

(** [s.split(sep)] for a non-empty separator: left to right, occurrences do
    not overlap.  [skip] counts the characters of a separator just matched
    that are still to be passed over. *)
Fixpoint split_go (sep : string) (skip : nat) (s : string) : list string :=
  match s with
  | EmptyString => [EmptyString]
  | String c s' =>
      match skip with
      | S k => split_go sep k s'
      | O =>
          if String.prefix sep s
          then EmptyString :: split_go sep (String.length sep - 1) s'
          else match split_go sep 0 s' with
               | h :: t => String c h :: t
               | [] => [String c EmptyString]
               end
      end
  end.

Definition split (sep s : string) : list string := split_go sep 0 s.

(** [sep.join(l)]. *)
Fixpoint join (sep : string) (l : list string) : string :=
  match l with
  | [] => EmptyString
  | [x] => x
  | x :: rest => x +++ sep +++ join sep rest
  end.

Definition str_in (x : string) (l : list string) : bool :=
  existsb (String.eqb x) l.

(** The lazy body of [\((.*?)\)] after an opening parenthesis: the text up to
    the first closing parenthesis, provided no newline comes before it
    ([.] does not match a newline). *)
Fixpoint lazy_group (s : string) : option string :=
  match s with
  | EmptyString => None
  | String c s' =>
      if Ascii.eqb c ")" then Some EmptyString
      else if Ascii.eqb c (ascii_of_nat 10) then None
      else match lazy_group s' with
           | Some g => Some (String c g)
           | None => None
           end
  end.

(** [re.findall(r'\((.*?)\)', s)]: the captured groups of the successive
    non-overlapping matches. *)
Fixpoint findall_go (skip : nat) (s : string) : list string :=
  match s with
  | EmptyString => []
  | String c s' =>
      match skip with
      | S k => findall_go k s'
      | O =>
          if Ascii.eqb c "("
          then match lazy_group s' with
               | Some g => g :: findall_go (S (String.length g)) s'
               | None => findall_go 0 s'
               end
          else findall_go 0 s'
      end
  end.

Definition findall_parens (s : string) : list string := findall_go 0 s.

(** [re.findall(pat, s)] for a pattern without metacharacters (and not
    empty): the successive non-overlapping occurrences of [pat]. *)
Fixpoint findall_lit_go (pat : string) (skip : nat) (s : string) : list string :=
  match s with
  | EmptyString => []
  | String _ s' =>
      match skip with
      | S k => findall_lit_go pat k s'
      | O =>
          if String.prefix pat s
          then pat :: findall_lit_go pat (String.length pat - 1) s'
          else findall_lit_go pat 0 s'
      end
  end.

Definition findall_lit (pat s : string) : list string := findall_lit_go pat 0 s.

(** [repr] of a [str] of ASCII characters. *)
Definition hex_digit (n : nat) : ascii :=
  if n <? 10 then ascii_of_nat (48 + n) else ascii_of_nat (87 + n).

Definition has_char (c : ascii) (s : string) : bool :=
  contains (String c EmptyString) s.

Definition repr_char (quote c : ascii) : string :=
  let n := nat_of_ascii c in
  if Ascii.eqb c quote || Ascii.eqb c "\" then String "\" (String c EmptyString)
  else if n =? 9 then "\t"
  else if n =? 10 then "\n"
  else if n =? 13 then "\r"
  else if (n <? 32) || (n =? 127)
       then String "\" (String "x" (String (hex_digit (n / 16))
                                     (String (hex_digit (n mod 16)) EmptyString)))
  else String c EmptyString.

Fixpoint repr_body (quote : ascii) (s : string) : string :=
  match s with
  | EmptyString => EmptyString
  | String c s' => repr_char quote c +++ repr_body quote s'
  end.

Definition repr_str (s : string) : string :=
  let dquote := ascii_of_nat 34 in
  let quote : ascii :=
    if has_char "'" s && negb (has_char dquote s) then dquote else "'"%char in
  String quote (repr_body quote s) +++ String quote EmptyString.

Definition repr_list (l : list string) : string :=
  "[" +++ join ", " (map repr_str l) +++ "]".

(** [list(set(l))].  CPython iterates a set in hash order, which is not
    specified; the embedding keeps one copy of each element in the order
    [nodup] leaves them, and the results below that mention it speak of
    membership, multiplicity and length only. *)
Definition list_of_set (l : list (list string)) : list (list string) :=
  nodup (list_eq_dec string_dec) l.

(** [s[n:]]. *)
Fixpoint drop (n : nat) (s : string) : string :=
  match n, s with
  | O, _ => s
  | S k, EmptyString => EmptyString
  | S k, String _ s' => drop k s'
  end.

End Py.

(** ** [kg_builder/utils.py] *)

Definition pytuple := list string.

Definition get_triplet_string (triplet : pytuple) : pyres string :=
  (t0 <- Py.getitem triplet 0%Z ;;
   t1 <- Py.getitem triplet 1%Z ;;
   t2 <- Py.getitem triplet 2%Z ;;
   Ok ("(" +++ t0 +++ ", " +++ t1 +++ ", " +++ t2 +++ ")"))%py.

Definition process_types (allowed_types : list string) : string :=
  let quoted := map (fun t => "'" +++ t +++ "'") allowed_types in
  let types_string := Py.nl +++ "-" in
  let types_string := types_string +++ Py.join (Py.nl +++ "-") quoted in
  types_string +++ Py.nl.

(** ** [kg_builder/prompts/prompting.py] *)

Record message := { role : string; content : string }.

(** What [extract_new_triplet] returns: [None], a [str] carrying the
    corrective instruction, or a tuple. *)
Inductive decision :=
| DNone
| DStr (error : string)
| DTuple (t : pytuple).

(** The five assignments that both parsers make from the comma-separated
    fields of one group. *)
Record fields := {
  entity1 : string; type1 : string;
  relation : string;
  entity2 : string; type2 : string }.

Definition standardize (split : list string) : pyres fields :=
  (s0 <- Py.getitem split 0%Z ;;
   e1 <- Py.getitem (Py.split ":" s0) 0%Z ;;
   s0' <- Py.getitem split 0%Z ;;
   t1 <- Py.getitem (Py.split ":" s0') (-1)%Z ;;
   s1 <- Py.getitem split 1%Z ;;
   s2 <- Py.getitem split 2%Z ;;
   e2 <- Py.getitem (Py.split ":" s2) 0%Z ;;
   s2' <- Py.getitem split 2%Z ;;
   t2 <- Py.getitem (Py.split ":" s2') (-1)%Z ;;
   Ok {| entity1 := Py.lower (Py.strip e1);
         type1 := Py.upper (Py.strip t1);
         relation := Py.lower (Py.strip s1);
         entity2 := Py.lower (Py.strip e2);
         type2 := Py.upper (Py.strip t2) |})%py.

Definition triplet_of (f : fields) : pytuple :=
  [entity1 f +++ ":" +++ type1 f; relation f; entity2 f +++ ":" +++ type2 f].

Module ExtractorPrompting.

Definition user_instruction : string :=
  "Extract relations triplet from the following passage:".
Definition allowed_types_prompt : string :=
  "Only extract entities of the following types:".

Section WithTemplate.
(** The text of [extractor_system_prompt.txt], once formatted. *)
Variable system_prompt : string.

Definition get_messages (passage : string) (allowed_types : list string)
  : list message :=
  [ {| role := "system"; content := system_prompt |};
    {| role := "user";
       content := user_instruction +++ " " +++ passage +++ Py.nl +++
                  allowed_types_prompt +++ " " +++ process_types allowed_types
                  +++ Py.nl |} ].
End WithTemplate.

(** The [for r in relations] loop; [valid] and the warnings issued so far are
    the loop state. *)
Fixpoint format_loop (relations : list string) (allowed_types : list string)
    (valid : list pytuple) (warns : list string)
  : pyres (list pytuple * list string) :=
  match relations with
  | [] => Ok (valid, warns)
  | r :: rest =>
      let split := Py.split "," r in
      if negb (length split =? 3)
      then format_loop rest allowed_types valid
             (warns ++ ["Cannot get a valid triplet from " +++ r])
      else
        (f <- standardize split ;;
         if negb (Py.str_in (type1 f) allowed_types)
         then format_loop rest allowed_types valid
                (warns ++ ["Type " +++ type1 f +++ " is not in allowed types."])
         else if negb (Py.str_in (type2 f) allowed_types)
         then format_loop rest allowed_types valid
                (warns ++ ["Type " +++ type2 f +++ " is not in allowed types."])
         else format_loop rest allowed_types (valid ++ [triplet_of f]) warns)%py
  end.

(** [format_triplets] with the warnings it issues. *)
Definition format_triplets_warn (extracted_relations : string)
    (allowed_types : list string) : pyres (list pytuple * list string) :=
  let relations := Py.findall_parens extracted_relations in
  (vw <- format_loop relations allowed_types [] [] ;;
   Ok (Py.list_of_set (fst vw), snd vw))%py.

Definition format_triplets (extracted_relations : string)
    (allowed_types : list string) : pyres (list pytuple) :=
  (vw <- format_triplets_warn extracted_relations allowed_types ;;
   Ok (fst vw))%py.

End ExtractorPrompting.

Module BuilderPrompting.

Definition add_key : string := "Add triplet:".
Definition discard_triplet_value : string := "None".
Definition allowed_types_prompt : string :=
  "Subject and object must be of one of the following types:".
Definition already_extracted_prompt : string :=
  "Triplets already in the Knowledge Graph:".
Definition proposed_prompt : string := "Proposed triplet:".

Definition missing_key_error : string :=
  "The key '" +++ add_key +++
  "' is not present in the generated text. Please try again adding" +++
  " '" +++ add_key +++ "' before the proposed triplet.".

Definition arity_error : string :=
  "A valid relation must have exactly 3 elements. " +++
  "Please try again producing a valid (subject:type, relation, object:type) triplet.".

Definition type_error (allowed_entity_types : list string) : string :=
  "The types of the subject and object of the triplet must be in " +++
  Py.repr_list allowed_entity_types +++ "." +++
  "You cannot add other types. Please try again returning either a valid triplet or " +++
  discard_triplet_value +++ ".".

Definition invalid_value_error : string :=
  "The value of the " +++ add_key +++ " key is not valid. " +++
  "The only allowed values are:" +++ Py.nl +++
  " - a single valid triplet (subject:type, relation, object:type) " +++
  "to be added - 'None' if the relation is already present in the graph.".

Definition extract_new_triplet (generation : string)
    (allowed_entity_types : list string) : pyres decision :=
  if negb (Py.contains add_key generation) then Ok (DStr missing_key_error)
  else
    (proposed_triplet <- Py.getitem (Py.split add_key generation) 1%Z ;;
     if 0 <? length (Py.findall_lit discard_triplet_value proposed_triplet)
     then Ok DNone
     else
       let t := Py.findall_parens proposed_triplet in
       if length t =? 1
       then
         t0 <- Py.getitem t 0%Z ;;
         if negb (length (Py.split "," t0) =? 3) then Ok (DStr arity_error)
         else
           t0' <- Py.getitem t 0%Z ;;
           let triplet := Py.split "," t0' in
           f <- standardize triplet ;;
           if negb (Py.str_in (type1 f) allowed_entity_types)
              || negb (Py.str_in (type2 f) allowed_entity_types)
           then Ok (DStr (type_error allowed_entity_types))
           else Ok (DTuple (triplet_of f))
       else Ok (DStr invalid_value_error))%py.

(** The message that [retry_messages] appends to the standard ones. *)
Definition retry_message (generation error : string) : message :=
  {| role := "user";
     content := "Your last generation:" +++ Py.nl +++ " " +++ generation
                +++ Py.nl +++ " generated the following error message:"
                +++ error |}.

Section WithTemplate.
(** The text of [builder_system_prompt.txt], once formatted. *)
Variable system_prompt : string.

Definition get_messages (proposed_relation : pytuple)
    (existing_relations : list string) (allowed_types : list string)
  : pyres (list message) :=
  let allowed_types_string := process_types allowed_types in
  let extracted :=
    if length existing_relations =? 0 then "Empty graph"
    else Py.join Py.nl existing_relations in
  (ts <- get_triplet_string proposed_relation ;;
   Ok [ {| role := "system"; content := system_prompt |};
        {| role := "user";
           content := already_extracted_prompt +++ ":" +++ Py.nl +++ " " +++
                      extracted +++ Py.nl +++
                      allowed_types_prompt +++ " " +++ allowed_types_string
                      +++ Py.nl +++
                      proposed_prompt +++ ": " +++ ts +++ Py.nl |} ])%py.

Definition retry_messages (proposed_relation : pytuple)
    (existing_relations : list string) (generation error : string)
    (allowed_entity_types : list string) : pyres (list message) :=
  (standard_msgs <- get_messages proposed_relation existing_relations
                      allowed_entity_types ;;
   Ok (standard_msgs ++ [retry_message generation error]))%py.
End WithTemplate.

End BuilderPrompting.

(** ** The pipeline's world: oracle, graph store and the calls made *)

(** The interface of [kg_builder/relations.py] that the pipeline uses.
    That module is not part of the sources at hand, so its three entry points
    are parameters: the whitelist attribute, the similarity search and the
    commit. *)
Record RelationsOps (Store : Type) := {
  allowed_entity_types : Store -> list string;
  retrieve_similar_triplets : pytuple -> Store -> list string;
  add_triplets : list pytuple -> string -> Store -> Store }.

(** The calls that leave the pipeline, in the order they are made. *)
Inductive event :=
| EvRetrieve (rel : pytuple)
| EvChat (model : string) (messages : list message) (max_new_tokens : Z)
| EvAdd (triplets : list pytuple) (passage : string)
| EvClear (model : string).

Record world (OracleState Store : Type) := {
  oracle : OracleState;
  store : Store;
  trace : list event }.

(** What [engine.prompting] offers on the extraction path and on the
    validation path. *)
Record ExtractorPromptingI := {
  ep_get_messages : string -> list string -> list message;
  ep_format_triplets : string -> list string -> pyres (list pytuple) }.

Record BuilderPromptingI := {
  bp_get_messages :
    pytuple -> list string -> list string -> pyres (list message);
  bp_retry_messages :
    pytuple -> list string -> string -> string -> list string
    -> pyres (list message);
  bp_extract_new_triplet : string -> list string -> pyres decision }.

Definition extractor_prompting (system_prompt : string) : ExtractorPromptingI :=
  {| ep_get_messages := ExtractorPrompting.get_messages system_prompt;
     ep_format_triplets := ExtractorPrompting.format_triplets |}.

Definition builder_prompting (system_prompt : string) : BuilderPromptingI :=
  {| bp_get_messages := BuilderPrompting.get_messages system_prompt;
     bp_retry_messages := BuilderPrompting.retry_messages system_prompt;
     bp_extract_new_triplet := BuilderPrompting.extract_new_triplet |}.

(** [ChatEngine]: generation options other than [max_new_tokens] are left at
    their defaults. *)
Record ChatEngine (OracleState P : Type) := {
  model_id : string;
  prompting : P;
  chat_completion :
    list message -> Z -> OracleState -> pyres string * OracleState;
  clear_caches : OracleState -> pyres unit * OracleState }.

(** ** [kg_builder/engine.py]: the call layer of [GeminiEngine] *)

Section Gemini.
Context {OracleState : Type}.

(** [@retry(..., stop=stop_after_attempt(n))]: the call is made again after
    every exception; when the n-th attempt fails too, [RetryError] is raised.
    The sleeps of [wait_exponential] are real time and leave no mark here. *)
Fixpoint retry (attempts : nat)
    (call : OracleState -> pyres string * OracleState) (os : OracleState)
  : pyres string * OracleState :=
  match attempts with
  | O => (Raise RetryError, os)
  | S k =>
      match call os with
      | (Ok text, os') => (Ok text, os')
      | (Raise _, os') => retry k call os'
      end
  end.

(** [chat.send_message(content, config=cfg)] of the remote client. *)
Variable send_message : string -> OracleState -> pyres string * OracleState.

Definition gemini_attempt (messages : list message) (os : OracleState)
  : pyres string * OracleState :=
  match Py.getitem messages (-1)%Z with
  | Ok m => send_message (content m) os
  | Raise e => (Raise e, os)
  end.

Definition gemini_chat_completion (messages : list message)
    (max_new_tokens : Z) : OracleState -> pyres string * OracleState :=
  retry 5 (gemini_attempt messages).

(** The cached property [client]: whether the instance holds a client that
    an earlier access has built, and the instance once [del self.client] has
    removed it. *)
Variable client_built : OracleState -> bool.
Variable del_client : OracleState -> OracleState.

(** [GeminiEngine.clear_caches]: [del self.client] raises [AttributeError]
    when the client was never built. *)
Definition gemini_clear_caches (os : OracleState) : pyres unit * OracleState :=
  if client_built os then (Ok tt, del_client os)
  else (Raise AttributeError, os).

Definition GeminiEngine {P} (model : string) (p : P) : ChatEngine OracleState P :=
  {| model_id := model;
     prompting := p;
     chat_completion := gemini_chat_completion;
     clear_caches := gemini_clear_caches |}.
End Gemini.

(** ** State-and-exception monad of the pipeline *)

Section Monad.
Context {OracleState Store : Type}.
Definition M (A : Type) : Type :=
  world OracleState Store -> pyres A * world OracleState Store.

Definition ret {A} (a : A) : M A := fun w => (Ok a, w).

Definition bind {A B} (m : M A) (k : A -> M B) : M B :=
  fun w =>
    match m w with
    | (Ok a, w') => k a w'
    | (Raise e, w') => (Raise e, w')
    end.

Definition lift {A} (r : pyres A) : M A := fun w => (r, w).

Definition log (e : event) : M unit :=
  fun w => (Ok tt, {| oracle := oracle w; store := store w;
                      trace := trace w ++ [e] |}).

Definition read_store {A} (f : Store -> A) : M A :=
  fun w => (Ok (f (store w)), w).

Definition write_store (f : Store -> Store) : M unit :=
  fun w => (Ok tt, {| oracle := oracle w; store := f (store w);
                      trace := trace w |}).

Definition on_oracle {A} (f : OracleState -> pyres A * OracleState) : M A :=
  fun w =>
    let (r, os) := f (oracle w) in
    (r, {| oracle := os; store := store w; trace := trace w |}).
End Monad.

Declare Scope kg_scope.
Delimit Scope kg_scope with kg.
Notation "x <- m ;; k" := (bind m (fun x => k))
  (at level 61, m at next level, right associativity) : kg_scope.
Notation "m ;;; k" := (bind m (fun _ => k))
  (at level 61, right associativity) : kg_scope.

(** ** [kg_builder/extractor.py] and [kg_builder/builder.py] *)

Section Stages.
Context {OracleState Store : Type}.
Variable ops : RelationsOps Store.
#[local] Abbreviation Mon := (@M OracleState Store).

Definition call_engine {P} (eng : ChatEngine OracleState P)
    (messages : list message) (max_new_tokens : Z) : Mon string :=
  (log (EvChat (model_id eng) messages max_new_tokens) ;;;
   on_oracle (chat_completion eng messages max_new_tokens))%kg.

Definition call_retrieve (rel : pytuple) : Mon (list string) :=
  (log (EvRetrieve rel) ;;;
   read_store (retrieve_similar_triplets ops rel))%kg.

Definition call_add (triplets : list pytuple) (passage : string) : Mon unit :=
  (log (EvAdd triplets passage) ;;;
   write_store (add_triplets ops triplets passage))%kg.

Definition call_clear {P} (eng : ChatEngine OracleState P) : Mon unit :=
  (log (EvClear (model_id eng)) ;;;
   on_oracle (clear_caches eng))%kg.

(** [RelationsExtractor.extract_from_passage] *)
Definition extract_from_passage (eng : ChatEngine OracleState ExtractorPromptingI)
    (passage : string) (allowed_types : list string) : Mon (list pytuple) :=
  let messages := ep_get_messages (prompting eng) passage allowed_types in
  (decoded <- call_engine eng messages 4096%Z ;;
   lift (ep_format_triplets (prompting eng) decoded allowed_types))%kg.

Section Builder.
Variable eng : ChatEngine OracleState BuilderPromptingI.

Definition decision_from_messages (messages : list message)
    (max_new_tokens : Z) : Mon (decision * string) :=
  (decoded <- call_engine eng messages max_new_tokens ;;
   allowed_types <- read_store (allowed_entity_types ops) ;;
   d <- lift (bp_extract_new_triplet (prompting eng) decoded allowed_types) ;;
   ret (d, decoded))%kg.

Definition validate_relation (proposed_relation : pytuple)
    (similar_relations : list string) : Mon (decision * string) :=
  (allowed <- read_store (allowed_entity_types ops) ;;
   messages <- lift (bp_get_messages (prompting eng) proposed_relation
                       similar_relations allowed) ;;
   decision_from_messages messages 512%Z)%kg.

Definition retry_validation (proposed_relation : pytuple) (error : string)
    (previous_generation : string) (similar_relations : list string)
  : Mon (decision * string) :=
  (allowed <- read_store (allowed_entity_types ops) ;;
   messages <- lift (bp_retry_messages (prompting eng) proposed_relation
                       similar_relations previous_generation error allowed) ;;
   decision_from_messages messages 1024%Z)%kg.

(** The last two statements of the loop body of [build_kg], reached with a
    decision that is neither [None] nor a [str]. *)
Definition append_and_add (t : pytuple) (passage : string)
    (added_triplets : list pytuple) : Mon (list pytuple) :=
  let added_triplets := added_triplets ++ [t] in
  ((if 0 <? length t then call_add [t] passage else ret tt) ;;;
   ret added_triplets)%kg.

(** The [for rel in proposed_relations] loop of [build_kg]; every
    [continue] is a direct call on the remaining candidates. *)
Fixpoint build_kg_loop (proposed_relations : list pytuple) (passage : string)
    (added_triplets : list pytuple) : Mon (list pytuple) :=
  match proposed_relations with
  | [] => ret added_triplets
  | rel :: rest =>
      (similar_relations <- call_retrieve rel ;;
       dg <- validate_relation rel similar_relations ;;
       match fst dg with
       | DNone => build_kg_loop rest passage added_triplets
       | DStr error =>
           dg' <- retry_validation rel error (snd dg) similar_relations ;;
           match fst dg' with
           | DNone | DStr _ => build_kg_loop rest passage added_triplets
           | DTuple t =>
               added <- append_and_add t passage added_triplets ;;
               build_kg_loop rest passage added
           end
       | DTuple t =>
           added <- append_and_add t passage added_triplets ;;
           build_kg_loop rest passage added
       end)%kg
  end.

Definition build_kg (proposed_relations : list pytuple) (passage : string)
  : Mon (list pytuple) :=
  build_kg_loop proposed_relations passage [].
End Builder.

(** ** [kg_builder/workflow.py] *)

Section Workflow.
(** [EBWorkflow.split_text]: the external text splitter. *)
Variable split_text : string -> list string.
Variable builder_engine : ChatEngine OracleState BuilderPromptingI.
Variable extractor_engine : ChatEngine OracleState ExtractorPromptingI.

(** The first loop of [__call__]. *)
Fixpoint extract_loop (chunks : list string)
    (extracted_triplets : list (list pytuple)) : Mon (list (list pytuple)) :=
  match chunks with
  | [] => ret extracted_triplets
  | chunk :: rest =>
      (allowed <- read_store (allowed_entity_types ops) ;;
       triplets <- extract_from_passage extractor_engine chunk allowed ;;
       extract_loop rest (extracted_triplets ++ [triplets]))%kg
  end.

(** The second loop of [__call__]: [for i, c in enumerate(chunks)], started
    at [i]. *)
Fixpoint build_loop (i : Z) (chunks : list string)
    (extracted_triplets : list (list pytuple)) : Mon unit :=
  match chunks with
  | [] => ret tt
  | c :: rest =>
      (candidates <- lift (Py.getitem extracted_triplets i) ;;
       build_kg builder_engine candidates c ;;;
       build_loop (i + 1)%Z rest extracted_triplets)%kg
  end.

(** [EBWorkflow.__call__]; the returned store is the [store] of the final
    world. *)
Definition workflow (text : string) (delete_models_after_use : bool)
  : Mon unit :=
  let chunks := split_text text in
  (extracted_triplets <- extract_loop chunks [] ;;
   (if delete_models_after_use then call_clear extractor_engine else ret tt) ;;;
   build_loop 0%Z chunks extracted_triplets ;;;
   (if delete_models_after_use then call_clear builder_engine else ret tt))%kg.
End Workflow.

End Stages.

(** ** Readings of a field used in the statements

    These are written from the words "before the first colon", "after the
    last colon" and "before the last colon", independently of [Py.split]. *)

Module Reading.

Fixpoint occurs (c : ascii) (s : string) : bool :=
  match s with
  | EmptyString => false
  | String a s' => Ascii.eqb a c || occurs c s'
  end.

Fixpoint before_first (c : ascii) (s : string) : string :=
  match s with
  | EmptyString => EmptyString
  | String a s' => if Ascii.eqb a c then EmptyString
                   else String a (before_first c s')
  end.

Fixpoint after_last (c : ascii) (s : string) : string :=
  match s with
  | EmptyString => EmptyString
  | String a s' =>
      if occurs c s' then after_last c s'
      else if Ascii.eqb a c then s' else s
  end.

Fixpoint before_last (c : ascii) (s : string) : string :=
  match s with
  | EmptyString => EmptyString
  | String a s' =>
      if occurs c s' then String a (before_last c s')
      else if Ascii.eqb a c then EmptyString else s
  end.

(** The type tag that an entity string [name:TYPE] carries. *)
Definition entity_type (entity : string) : string := after_last ":" entity.

(** A triplet whose subject and object both carry a whitelisted type. *)
Definition well_typed (allowed : list string) (t : pytuple) : Prop :=
  exists s r o, t = [s; r; o]
    /\ In (entity_type s) allowed /\ In (entity_type o) allowed.

Import Py.

(** The fields of a three-field group as the code normalises them. *)
Definition fields_of (f0 f1 f2 : string) : fields :=
  {| entity1 := lower (strip (before_first ":" f0));
     type1 := upper (strip (after_last ":" f0));
     relation := lower (strip f1);
     entity2 := lower (strip (before_first ":" f2));
     type2 := upper (strip (after_last ":" f2)) |}.

(** What one pass of the extraction loop does with a group: the triplet it
    appends, or the warning it issues. *)
Definition group_result (allowed_types : list string) (r : string)
  : pytuple + string :=
  match split "," r with
  | [f0; f1; f2] =>
      let f := fields_of f0 f1 f2 in
      if negb (str_in (type1 f) allowed_types)
      then inr ("Type " +++ type1 f +++ " is not in allowed types.")
      else if negb (str_in (type2 f) allowed_types)
      then inr ("Type " +++ type2 f +++ " is not in allowed types.")
      else inl (triplet_of f)
  | _ => inr ("Cannot get a valid triplet from " +++ r)
  end.

Fixpoint lefts {A B} (l : list (A + B)) : list A :=
  match l with
  | [] => []
  | inl a :: l' => a :: lefts l'
  | inr _ :: l' => lefts l'
  end.

Fixpoint rights {A B} (l : list (A + B)) : list B :=
  match l with
  | [] => []
  | inl _ :: l' => rights l'
  | inr b :: l' => b :: rights l'
  end.

End Reading.

(** ** One candidate of [build_kg], and the two phases of the workflow as the
    specification words them *)

Section Readings.
Context {OracleState Store : Type}.
Variable ops : RelationsOps Store.
#[local] Abbreviation Mo := (@M OracleState Store).

(** The decision on which the tail of the loop body acts: the first one, or
    the one of the retry when the first is a [str]. *)
Definition decide_candidate (eng : ChatEngine OracleState BuilderPromptingI)
    (rel : pytuple) : Mo decision :=
  (similar_relations <- call_retrieve ops rel ;;
   dg <- validate_relation ops eng rel similar_relations ;;
   match fst dg with
   | DStr error =>
       dg' <- retry_validation ops eng rel error (snd dg) similar_relations ;;
       ret (fst dg')
   | d => ret d
   end)%kg.

(** Extraction over every passage, in passage order. *)
Fixpoint extract_in_order (xe : ChatEngine OracleState ExtractorPromptingI)
    (chunks : list string) : Mo (list (list pytuple)) :=
  match chunks with
  | [] => ret []
  | chunk :: rest =>
      (allowed <- read_store (allowed_entity_types ops) ;;
       triplets <- extract_from_passage xe chunk allowed ;;
       others <- extract_in_order xe rest ;;
       ret (triplets :: others))%kg
  end.

(** Validation of each passage's candidates with that passage as provenance,
    in passage order. *)
Fixpoint validate_in_order (be : ChatEngine OracleState BuilderPromptingI)
    (work : list (string * list pytuple)) : Mo unit :=
  match work with
  | [] => ret tt
  | (passage, candidates) :: rest =>
      (build_kg ops be candidates passage ;;;
       validate_in_order be rest)%kg
  end.

End Readings.

(** ** Worlds and what a computation may do to them *)

Section WorldReadings.
Context {OracleState Store : Type}.
#[local] Abbreviation Wr := (world OracleState Store).

(** The world reached from [w] when the oracle has moved to [os] and the
    calls [evs] have been made, the store being untouched. *)
Definition after (w : Wr) (os : OracleState) (evs : list event) : Wr :=
  {| oracle := os; store := store w; trace := trace w ++ evs |}.

(** [keeps (OracleState := OracleState) I good m Q]: from a store satisfying [I], [m] ends in a store
    satisfying [I], appends only [good] calls to the trace, and a value it
    returns satisfies [Q]. *)
Definition keeps (I : Store -> Prop) (good : event -> Prop) {A}
    (m : @M OracleState Store A) (Q : A -> Prop) : Prop :=
  forall (w : Wr) r w', I (store w) -> m w = (r, w') ->
    I (store w')
    /\ (exists evs, trace w' = trace w ++ evs /\ Forall good evs)
    /\ (forall a, r = Ok a -> Q a).

End WorldReadings.

(** [failed_attempts call n os os']: [n] calls in a row, started in [os], all
    raise, and leave the oracle in [os']. *)
Section Attempts.
Context {OracleState : Type}.
Variable call : OracleState -> pyres string * OracleState.

Inductive failed_attempts : nat -> OracleState -> OracleState -> Prop :=
| failed_none os : failed_attempts 0 os os
| failed_more n os e os1 os' :
    call os = (Raise e, os1) -> failed_attempts n os1 os' ->
    failed_attempts (S n) os os'.

End Attempts.

(** [exhausted_for ops send model P rel w w']: the validation of the
    candidate [rel], started in the world [w], comes to an oracle call of a
    [GeminiEngine], on the first prompt or on the retry prompt, whose five
    attempts all fail; [w'] is the world at that point. *)
Section Exhaustion.
Context {OracleState Store : Type}.
Variable ops : RelationsOps Store.
Variable send_message : string -> OracleState -> pyres string * OracleState.
Variable model : string.
Variable P : BuilderPromptingI.
Variable rel : pytuple.

Inductive exhausted_for (w : world OracleState Store)
  : world OracleState Store -> Prop :=
| exhausted_first msgs os1 :
    bp_get_messages P rel (retrieve_similar_triplets ops rel (store w))
      (allowed_entity_types ops (store w)) = Ok msgs ->
    failed_attempts (gemini_attempt send_message msgs) 5 (oracle w) os1 ->
    exhausted_for w (after w os1 [EvRetrieve rel; EvChat model msgs 512%Z])
| exhausted_retry msgs gen1 os1 err msgs2 os2 :
    bp_get_messages P rel (retrieve_similar_triplets ops rel (store w))
      (allowed_entity_types ops (store w)) = Ok msgs ->
    gemini_chat_completion send_message msgs 512%Z (oracle w) = (Ok gen1, os1) ->
    bp_extract_new_triplet P gen1 (allowed_entity_types ops (store w))
    = Ok (DStr err) ->
    bp_retry_messages P rel (retrieve_similar_triplets ops rel (store w))
      gen1 err (allowed_entity_types ops (store w)) = Ok msgs2 ->
    failed_attempts (gemini_attempt send_message msgs2) 5 os1 os2 ->
    exhausted_for w (after w os2 [EvRetrieve rel; EvChat model msgs 512%Z;
                                  EvChat model msgs2 1024%Z]).
End Exhaustion.

(** ** Test doubles: a scripted oracle and a list-backed store *)

Module Stub.

Definition script := list (pyres string).

Definition next_response (os : script) : pyres string * script :=
  match os with
  | [] => (Raise (OracleFailure "no response left"), [])
  | r :: rest => (r, rest)
  end.

Definition scripted_engine {P} (model : string) (p : P) : ChatEngine script P :=
  {| model_id := model;
     prompting := p;
     chat_completion := fun _ _ => next_response;
     clear_caches := fun os => (Ok tt, os) |}.

Definition scripted_send (text : string) : script -> pyres string * script :=
  next_response.

Record kg := { kg_allowed : list string; kg_triplets : list (pytuple * string) }.

Definition kg_ops : RelationsOps kg :=
  {| allowed_entity_types := kg_allowed;
     retrieve_similar_triplets := fun _ st =>
       map (fun tp => "(" +++ Py.join ", " (fst tp) +++ ")") (kg_triplets st);
     add_triplets := fun ts passage st =>
       {| kg_allowed := kg_allowed st;
          kg_triplets := kg_triplets st ++ map (fun t => (t, passage)) ts |} |}.

Definition empty_kg (allowed : list string) : kg :=
  {| kg_allowed := allowed; kg_triplets := [] |}.

Definition start (allowed : list string) (os : script) : world script kg :=
  {| oracle := os; store := empty_kg allowed; trace := [] |}.

Definition types : list string := ["PERSON"; "COMPANY"; "LOCATION"].
Definition c1 : pytuple := ["alex:PERSON"; "works at"; "acme:COMPANY"].
Definition c2 : pytuple := ["acme:COMPANY"; "located in"; "paris:LOCATION"].
Definition c3 : pytuple := ["alex:PERSON"; "lives in"; "paris:LOCATION"].

Definition accept_c1 : string :=
  "Add triplet: (alex:PERSON, works at, acme:COMPANY)".
Definition accept_c2 : string :=
  "Add triplet: (acme:COMPANY, located in, paris:LOCATION)".

Definition builder : ChatEngine script BuilderPromptingI :=
  scripted_engine "builder" (builder_prompting "").
Definition extractor : ChatEngine script ExtractorPromptingI :=
  scripted_engine "extractor" (extractor_prompting "").
(** The scripted double of [GeminiEngine]; its client is taken to be built
    from the start and deleting it leaves the script alone. *)
Definition gemini : ChatEngine script BuilderPromptingI :=
  GeminiEngine scripted_send (fun _ => true) (fun os => os) "gemini"
    (builder_prompting "").

(** One passage per line. *)
Definition split_lines (text : string) : list string := Py.split Py.nl text.

(** An engine without state that answers with the marker followed by the
    content of the last message. *)
Definition echo_engine {P} (model : string) (p : P) : ChatEngine unit P :=
  {| model_id := model;
     prompting := p;
     chat_completion := fun msgs _ os =>
       (Ok (BuilderPrompting.add_key +++ " " +++
            match Py.getitem msgs (-1)%Z with
            | Ok m => content m
            | Raise _ => EmptyString
            end), os);
     clear_caches := fun os => (Ok tt, os) |}.

End Stub.

(** ** Kinds of calls, and further readings used in the statements *)

Definition is_retrieve (e : event) : bool :=
  match e with EvRetrieve _ => true | _ => false end.
Definition is_chat (e : event) : bool :=
  match e with EvChat _ _ _ => true | _ => false end.
Definition is_add (e : event) : bool :=
  match e with EvAdd _ _ => true | _ => false end.

(** How many of the calls [evs] are of the kind [p]. *)
Definition count (p : event -> bool) (evs : list event) : nat :=
  length (filter p evs).

(** The extractor call made for the passage [c] under the whitelist [al]. *)
Definition extractor_call {OracleState}
    (xe : ChatEngine OracleState ExtractorPromptingI)
    (al : list string) (c : string) : event :=
  EvChat (model_id xe) (ep_get_messages (prompting xe) c al) 4096%Z.

(** A commit of one triplet whose passage is among [chunks]. *)
Definition commit_from (chunks : list string) (e : event) : Prop :=
  match e with
  | EvAdd ts p => In p chunks /\ exists t, ts = [t]
  | _ => True
  end.

(** A commit of triplets that are well typed for the whitelist [al]. *)
Definition typed_commit (al : list string) (e : event) : Prop :=
  match e with
  | EvAdd ts _ => Forall (Reading.well_typed al) ts
  | _ => True
  end.

(** An engine that answers every call: neither [chat_completion] nor
    [clear_caches] raises. *)
Definition answers {OracleState P} (eng : ChatEngine OracleState P) : Prop :=
  (forall msgs n os, exists text os',
      chat_completion eng msgs n os = (Ok text, os'))
  /\ (forall os, exists os', clear_caches eng os = (Ok tt, os')).

(** A string that does not begin with white space. *)
Definition starts_clean (s : string) : bool :=
  match s with
  | EmptyString => true
  | String c _ => negb (Py.is_space c)
  end.

(** The three characters that delimit a rendered triplet. *)
Definition delimiter_free (s : string) : Prop :=
  Reading.occurs ")" s = false /\ Reading.occurs (ascii_of_nat 10) s = false
  /\ Reading.occurs "," s = false.

(** * Facts *)

Import Py Reading.

(** ** Sequences and strings *)

Lemma getitem_nonneg {A} (l : list A) (n : nat) (a : A) :
  nth_error l n = Some a -> getitem l (Z.of_nat n) = Ok a.
Proof.
  intros H. unfold getitem. cbv zeta.
  assert (Hlt : n < length l) by (apply nth_error_Some; congruence).
  assert (E1 : (Z.of_nat n <? 0)%Z = false) by (apply Z.ltb_ge; lia).
  rewrite E1, E1.
  assert (E2 : (Z.of_nat (length l) <=? Z.of_nat n)%Z = false)
    by (apply Z.leb_gt; lia).
  rewrite E2. simpl. rewrite Nat2Z.id, H. reflexivity.
Qed.

Lemma getitem_first {A} (a : A) (l : list A) : getitem (a :: l) 0%Z = Ok a.
Proof. apply (getitem_nonneg (a :: l) 0). reflexivity. Qed.

Lemma getitem_last {A} (l : list A) (a : A) :
  getitem (l ++ [a]) (-1)%Z = Ok a.
Proof.
  unfold getitem. cbv zeta. rewrite length_app. simpl length.
  replace (-1 <? 0)%Z with true by reflexivity.
  replace (-1 + Z.of_nat (length l + 1))%Z with (Z.of_nat (length l)) by lia.
  assert (E1 : (Z.of_nat (length l) <? 0)%Z = false) by (apply Z.ltb_ge; lia).
  assert (E2 : (Z.of_nat (length l + 1) <=? Z.of_nat (length l))%Z = false)
    by (apply Z.leb_gt; lia).
  rewrite E1, E2. simpl.
  rewrite Nat2Z.id, nth_error_app2, Nat.sub_diag by lia. reflexivity.
Qed.

Lemma getitem_three {A} (a b c : A) :
  getitem [a; b; c] 0%Z = Ok a /\ getitem [a; b; c] 1%Z = Ok b
  /\ getitem [a; b; c] 2%Z = Ok c.
Proof. repeat split. Qed.

Lemma length_three {A} (l : list A) :
  length l = 3 -> exists a b c, l = [a; b; c].
Proof.
  destruct l as [|a [|b [|c [|d l]]]]; simpl; try discriminate.
  intros _. now exists a, b, c.
Qed.

(** *** [split] *)

Lemma split_go_skip sep k c s :
  split_go sep (S k) (String c s) = split_go sep k s.
Proof. reflexivity. Qed.

Lemma split_go_scan sep c s :
  split_go sep 0 (String c s) =
  if String.prefix sep (String c s)
  then EmptyString :: split_go sep (String.length sep - 1) s
  else match split_go sep 0 s with
       | h :: t => String c h :: t
       | [] => [String c EmptyString]
       end.
Proof. reflexivity. Qed.

Lemma split_go_nonempty sep k s : split_go sep k s <> [].
Proof.
  revert k. induction s as [|c s IH]; intros k; [discriminate|].
  destruct k as [|k]; [|rewrite split_go_skip; apply IH].
  rewrite split_go_scan.
  destruct (String.prefix sep (String c s)); [discriminate|].
  destruct (split_go sep 0 s); discriminate.
Qed.

Lemma split_nonempty sep s : split sep s <> [].
Proof. apply split_go_nonempty. Qed.

Lemma contains_cons sub c s :
  contains sub (String c s) = String.prefix sub (String c s) || contains sub s.
Proof. reflexivity. Qed.

Lemma contains_split_go sep k s :
  contains sep (drop k s) = true -> sep <> EmptyString ->
  2 <= length (split_go sep k s).
Proof.
  intros H Hsep. revert k H. induction s as [|c s IH]; intros k H.
  - destruct k; simpl in H; destruct sep; try congruence; discriminate.
  - destruct k as [|k].
    + cbn [drop] in H. rewrite contains_cons in H. rewrite split_go_scan.
      destruct (String.prefix sep (String c s)).
      * pose proof (split_go_nonempty sep (String.length sep - 1) s).
        destruct (split_go sep (String.length sep - 1) s);
          [congruence|simpl; lia].
      * simpl in H. specialize (IH 0 H).
        destruct (split_go sep 0 s); simpl in *; lia.
    + rewrite split_go_skip. apply IH, H.
Qed.

Lemma contains_split sep s :
  contains sep s = true -> sep <> EmptyString -> 2 <= length (split sep s).
Proof. intros H Hs. apply contains_split_go; assumption. Qed.

Lemma getitem_second {A} (l : list A) :
  2 <= length l -> exists a, getitem l 1%Z = Ok a.
Proof.
  destruct l as [|a [|b l]]; simpl; try lia. intros _. exists b.
  apply (getitem_nonneg (a :: b :: l) 1). reflexivity.
Qed.

(** *** Splitting on one character *)

Lemma prefix_empty s : String.prefix EmptyString s = true.
Proof. destruct s; reflexivity. Qed.

Lemma prefix_single c a s :
  String.prefix (String c EmptyString) (String a s) = Ascii.eqb a c.
Proof.
  cbn [String.prefix]. destruct (ascii_dec c a) as [->|Hne].
  - rewrite prefix_empty, Ascii.eqb_refl. reflexivity.
  - symmetry. apply Ascii.eqb_neq. congruence.
Qed.

Lemma split_single_cons c a s :
  split (String c EmptyString) (String a s) =
  if Ascii.eqb a c then EmptyString :: split (String c EmptyString) s
  else match split (String c EmptyString) s with
       | h :: t => String a h :: t
       | [] => [String a EmptyString]
       end.
Proof. unfold split. rewrite split_go_scan, prefix_single. reflexivity. Qed.

Lemma split_single_absent c s :
  occurs c s = false -> split (String c EmptyString) s = [s].
Proof.
  induction s as [|a s IH]; [reflexivity|]. cbn [occurs]. intros H.
  apply orb_false_iff in H as [Ha Hs].
  rewrite split_single_cons, Ha, (IH Hs). reflexivity.
Qed.

Lemma split_single_present c s :
  occurs c s = true -> 2 <= length (split (String c EmptyString) s).
Proof.
  induction s as [|a s IH]; [discriminate|]. cbn [occurs]. intros H.
  rewrite split_single_cons. destruct (Ascii.eqb a c).
  - pose proof (split_nonempty (String c EmptyString) s).
    destruct (split (String c EmptyString) s); [congruence|simpl; lia].
  - simpl in H. specialize (IH H).
    destruct (split (String c EmptyString) s); simpl in *; lia.
Qed.

Lemma split_single_first c s :
  getitem (split (String c EmptyString) s) 0%Z = Ok (before_first c s).
Proof.
  induction s as [|a s IH]; [reflexivity|].
  rewrite split_single_cons. cbn [before_first].
  destruct (Ascii.eqb a c); [apply getitem_first|].
  pose proof (split_nonempty (String c EmptyString) s) as Hne.
  destruct (split (String c EmptyString) s) as [|h t]; [congruence|].
  rewrite getitem_first in *. congruence.
Qed.

Lemma getitem_last_cons {A} (x y : A) (l : list A) :
  getitem (x :: y :: l) (-1)%Z = getitem (y :: l) (-1)%Z.
Proof.
  destruct (exists_last (l := y :: l)) as (l' & z & E); [discriminate|].
  rewrite E. change (x :: l' ++ [z]) with ((x :: l') ++ [z]).
  now rewrite !getitem_last.
Qed.

Lemma after_last_absent c s : occurs c s = false -> after_last c s = s.
Proof.
  destruct s as [|a s]; [reflexivity|]. cbn [occurs after_last]. intros H.
  apply orb_false_iff in H as [Ha Hs]. now rewrite Hs, Ha.
Qed.

Lemma split_single_last c s :
  getitem (split (String c EmptyString) s) (-1)%Z = Ok (after_last c s).
Proof.
  induction s as [|a s IH]; [reflexivity|].
  rewrite split_single_cons. cbn [after_last].
  destruct (occurs c s) eqn:Eo.
  - pose proof (split_single_present c s Eo) as Hlen.
    destruct (split (String c EmptyString) s) as [|h [|h' t]];
      simpl in Hlen; try lia.
    destruct (Ascii.eqb a c); rewrite !getitem_last_cons in *; exact IH.
  - rewrite (split_single_absent c s Eo).
    destruct (Ascii.eqb a c); reflexivity.
Qed.

(** *** Characters that normalisation neither adds nor turns into a colon *)

Lemma occurs_before_first c s : occurs c (before_first c s) = false.
Proof.
  induction s as [|a s IH]; [reflexivity|]. cbn [before_first].
  destruct (Ascii.eqb a c) eqn:E; [reflexivity|].
  cbn [occurs]. now rewrite E, IH.
Qed.

Lemma occurs_after_last c s : occurs c (after_last c s) = false.
Proof.
  induction s as [|a s IH]; [reflexivity|]. cbn [after_last].
  destruct (occurs c s) eqn:Eo; [exact IH|].
  destruct (Ascii.eqb a c) eqn:E; [exact Eo|].
  cbn [occurs]. now rewrite E, Eo.
Qed.

Lemma occurs_lstrip c s : occurs c s = false -> occurs c (lstrip s) = false.
Proof.
  induction s as [|a s IH]; [reflexivity|]. cbn [lstrip]. intros H.
  destruct (is_space a); [|exact H].
  apply IH. cbn [occurs] in H. now apply orb_false_iff in H.
Qed.

Lemma occurs_rstrip c s : occurs c s = false -> occurs c (rstrip s) = false.
Proof.
  induction s as [|a s IH]; [reflexivity|]. cbn [occurs rstrip]. intros H.
  apply orb_false_iff in H as [Ha Hs]. specialize (IH Hs).
  destruct (rstrip s) as [|b r].
  - destruct (is_space a); [reflexivity|]. cbn [occurs]. now rewrite Ha.
  - cbn [occurs] in *. now rewrite Ha, IH.
Qed.

Lemma occurs_strip c s : occurs c s = false -> occurs c (strip s) = false.
Proof. intros H. apply occurs_rstrip, occurs_lstrip, H. Qed.

Lemma upper_char_colon a :
  Ascii.eqb (upper_char a) ":" = Ascii.eqb a ":".
Proof. destruct a as [[] [] [] [] [] [] [] []]; reflexivity. Qed.

Lemma lower_char_colon a :
  Ascii.eqb (lower_char a) ":" = Ascii.eqb a ":".
Proof. destruct a as [[] [] [] [] [] [] [] []]; reflexivity. Qed.

Lemma occurs_upper s : occurs ":" (upper s) = occurs ":" s.
Proof.
  induction s as [|a s IH]; [reflexivity|].
  unfold upper in *. cbn [map_chars occurs]. now rewrite upper_char_colon, IH.
Qed.

Lemma occurs_lower s : occurs ":" (lower s) = occurs ":" s.
Proof.
  induction s as [|a s IH]; [reflexivity|].
  unfold lower in *. cbn [map_chars occurs]. now rewrite lower_char_colon, IH.
Qed.

Lemma occurs_app c s t : occurs c (s +++ t) = occurs c s || occurs c t.
Proof.
  induction s as [|a s IH]; [reflexivity|].
  cbn [String.append occurs]. now rewrite IH, orb_assoc.
Qed.

Lemma after_last_join c e t :
  occurs c t = false -> after_last c (e +++ String c t) = t.
Proof.
  intros Ht. induction e as [|a e IH]; cbn [String.append after_last].
  - now rewrite Ht, Ascii.eqb_refl.
  - rewrite occurs_app. cbn [occurs]. rewrite Ascii.eqb_refl, orb_true_r.
    exact IH.
Qed.

Lemma str_in_In x l : str_in x l = true <-> In x l.
Proof.
  unfold str_in. rewrite existsb_exists. split.
  - intros (y & Hy & E). apply String.eqb_eq in E. now subst.
  - intros H. exists x. split; [assumption|apply String.eqb_refl].
Qed.

(** ** The parsers *)

Lemma standardize_three f0 f1 f2 :
  standardize [f0; f1; f2] = Ok (fields_of f0 f1 f2).
Proof.
  unfold standardize.
  destruct (getitem_three f0 f1 f2) as (E0 & E1 & E2).
  rewrite E0, E1, E2. cbn [pybind].
  change ":" with (String ":"%char EmptyString).
  rewrite !split_single_first, !split_single_last. reflexivity.
Qed.

Lemma type1_no_colon f0 f1 f2 : occurs ":" (type1 (fields_of f0 f1 f2)) = false.
Proof.
  cbn [fields_of type1]. rewrite occurs_upper.
  apply occurs_strip, occurs_after_last.
Qed.

Lemma type2_no_colon f0 f1 f2 : occurs ":" (type2 (fields_of f0 f1 f2)) = false.
Proof.
  cbn [fields_of type2]. rewrite occurs_upper.
  apply occurs_strip, occurs_after_last.
Qed.

Lemma entity_type_join e t :
  occurs ":" t = false -> entity_type (e +++ ":" +++ t) = t.
Proof. intros H. unfold entity_type. apply (after_last_join ":" e t H). Qed.

Lemma triplet_of_types f0 f1 f2 :
  exists s r o, triplet_of (fields_of f0 f1 f2) = [s; r; o]
    /\ entity_type s = type1 (fields_of f0 f1 f2)
    /\ entity_type o = type2 (fields_of f0 f1 f2).
Proof.
  eexists _, _, _. split; [reflexivity|]. split.
  - apply entity_type_join, type1_no_colon.
  - apply entity_type_join, type2_no_colon.
Qed.

Lemma format_loop_results rs allowed valid warns :
  ExtractorPrompting.format_loop rs allowed valid warns =
  Ok (valid ++ lefts (map (group_result allowed) rs),
      warns ++ rights (map (group_result allowed) rs)).
Proof.
  revert valid warns. induction rs as [|r rs IH]; intros valid warns.
  - cbn. now rewrite !app_nil_r.
  - cbn [ExtractorPrompting.format_loop map]. unfold group_result at 1 3.
    destruct (split "," r) as [|f0 [|f1 [|f2 [|f3 l]]]] eqn:Es;
      cbn [length Nat.eqb negb];
      try (rewrite IH; cbn [lefts rights]; now rewrite <- app_assoc).
    rewrite standardize_three. cbn [pybind]. cbv zeta.
    destruct (str_in (type1 (fields_of f0 f1 f2)) allowed); cbn [negb];
      [|rewrite IH; cbn [lefts rights]; now rewrite <- app_assoc].
    destruct (str_in (type2 (fields_of f0 f1 f2)) allowed); cbn [negb];
      rewrite IH; cbn [lefts rights]; now rewrite <- app_assoc.
Qed.

Lemma In_lefts {A B} (a : A) (l : list (A + B)) :
  In a (lefts l) <-> In (inl a) l.
Proof.
  induction l as [|[x|y] l IH]; cbn; [tauto| |].
  - rewrite IH. split; intros [H|H]; auto; left; congruence.
  - rewrite IH. split; [auto|]. intros [H|H]; [discriminate|auto].
Qed.

Lemma In_rights {A B} (b : B) (l : list (A + B)) :
  In b (rights l) <-> In (inr b) l.
Proof.
  induction l as [|[x|y] l IH]; cbn; [tauto| |].
  - rewrite IH. split; [auto|]. intros [H|H]; [discriminate|auto].
  - rewrite IH. split; intros [H|H]; auto; left; congruence.
Qed.

Lemma format_triplets_warn_results text allowed :
  ExtractorPrompting.format_triplets_warn text allowed =
  Ok (list_of_set (lefts (map (group_result allowed) (findall_parens text))),
      rights (map (group_result allowed) (findall_parens text))).
Proof.
  unfold ExtractorPrompting.format_triplets_warn.
  rewrite format_loop_results. reflexivity.
Qed.

Lemma group_result_triplet allowed r t :
  group_result allowed r = inl t ->
  exists f0 f1 f2, split "," r = [f0; f1; f2]
    /\ t = triplet_of (fields_of f0 f1 f2)
    /\ In (type1 (fields_of f0 f1 f2)) allowed
    /\ In (type2 (fields_of f0 f1 f2)) allowed.
Proof.
  unfold group_result.
  destruct (split "," r) as [|f0 [|f1 [|f2 [|f3 l]]]]; try discriminate.
  cbv zeta.
  destruct (str_in (type1 (fields_of f0 f1 f2)) allowed) eqn:E1;
    cbn [negb]; [|discriminate].
  destruct (str_in (type2 (fields_of f0 f1 f2)) allowed) eqn:E2;
    cbn [negb]; [|discriminate].
  intros [= <-]. exists f0, f1, f2. repeat split; now apply str_in_In.
Qed.

Lemma extract_new_triplet_cases generation allowed :
  exists d, BuilderPrompting.extract_new_triplet generation allowed = Ok d
    /\ match d with
       | DTuple t =>
           exists f0 f1 f2, t = triplet_of (fields_of f0 f1 f2)
             /\ In (type1 (fields_of f0 f1 f2)) allowed
             /\ In (type2 (fields_of f0 f1 f2)) allowed
       | _ => True
       end.
Proof.
  unfold BuilderPrompting.extract_new_triplet.
  destruct (contains BuilderPrompting.add_key generation) eqn:Ec;
    cbn [negb]; [|eexists; split; [reflexivity|exact I]].
  destruct (getitem_second (split BuilderPrompting.add_key generation))
    as [p Ep]; [apply contains_split; [assumption|discriminate]|].
  rewrite Ep. cbn [pybind].
  destruct (0 <? length (findall_lit BuilderPrompting.discard_triplet_value p));
    [eexists; split; [reflexivity|exact I]|].
  cbv zeta.
  destruct (findall_parens p) as [|g [|g' gs]]; cbn [length Nat.eqb];
    try (eexists; split; [reflexivity|exact I]).
  rewrite getitem_first. cbn [pybind].
  destruct (split "," g) as [|f0 [|f1 [|f2 [|f3 l]]]] eqn:Es;
    cbn [length Nat.eqb negb];
    try (eexists; split; [reflexivity|exact I]).
  rewrite standardize_three. cbn [pybind].
  destruct (str_in (type1 (fields_of f0 f1 f2)) allowed) eqn:E1; cbn [negb orb];
    [|eexists; split; [reflexivity|exact I]].
  destruct (str_in (type2 (fields_of f0 f1 f2)) allowed) eqn:E2; cbn [negb];
    [|eexists; split; [reflexivity|exact I]].
  eexists; split; [reflexivity|].
  exists f0, f1, f2. repeat split; now apply str_in_In.
Qed.

(** C10. Both parser entry points return on every input: extraction-mode
    parsing yields a list of triplets, validation-decision parsing yields
    [None], an error string or a three-field tuple; no indexing in either of
    them raises. *)
Theorem parsers_total (text : string) (allowed : list string) :
  (exists l, ExtractorPrompting.format_triplets text allowed = Ok l
             /\ Forall (fun t => length t = 3) l)
  /\ (exists d, BuilderPrompting.extract_new_triplet text allowed = Ok d
                /\ match d with
                   | DTuple t => length t = 3
                   | DNone | DStr _ => True
                   end).
Proof.
  split.
  - unfold ExtractorPrompting.format_triplets.
    rewrite format_triplets_warn_results. cbn [pybind fst].
    eexists. split; [reflexivity|].
    apply Forall_forall. intros t Ht.
    apply nodup_In, In_lefts, in_map_iff in Ht as (r & Hr & _).
    apply group_result_triplet in Hr as (f0 & f1 & f2 & _ & -> & _).
    reflexivity.
  - destruct (extract_new_triplet_cases text allowed) as (d & Hd & Hcase).
    exists d. split; [assumption|].
    destruct d as [| |t]; try exact I.
    destruct Hcase as (f0 & f1 & f2 & -> & _). reflexivity.
Qed.

(** C4. The documented example: with PERSON and LOCATION allowed, the text
    holds one group, whose fields normalise to the entity alex of type PERSON,
    the relation graduated from and the entity columbia university of type
    LOCATION, and the list returned holds that triplet and nothing else. *)
Theorem format_triplets_alex (allowed : list string)
    (HP : In "PERSON" allowed) (HL : In "LOCATION" allowed) :
  let alex := {| entity1 := "alex"; type1 := "PERSON";
                 relation := "graduated from";
                 entity2 := "columbia university"; type2 := "LOCATION" |} in
  standardize
    (split "," "alex:PERSON, graduated from, columbia university:LOCATION")
  = Ok alex
  /\ ExtractorPrompting.format_triplets
       "(alex:PERSON, graduated from, columbia university:LOCATION)" allowed
     = Ok [triplet_of alex]
  /\ triplet_of alex
     = ["alex:PERSON"; "graduated from"; "columbia university:LOCATION"].
Proof.
  intros alex. split; [reflexivity|]. split; [|reflexivity].
  unfold ExtractorPrompting.format_triplets.
  rewrite format_triplets_warn_results. cbn [pybind fst].
  replace (findall_parens
             "(alex:PERSON, graduated from, columbia university:LOCATION)")
    with ["alex:PERSON, graduated from, columbia university:LOCATION"]
    by reflexivity.
  cbn [map]. unfold group_result.
  replace (split "," "alex:PERSON, graduated from, columbia university:LOCATION")
    with ["alex:PERSON"; " graduated from"; " columbia university:LOCATION"]
    by reflexivity.
  replace (fields_of "alex:PERSON" " graduated from"
             " columbia university:LOCATION") with alex by reflexivity.
  cbv zeta. cbn [type1 type2 alex].
  apply str_in_In in HP, HL. rewrite HP, HL. reflexivity.
Qed.

Lemma format_triplets_alex_witness :
  ExtractorPrompting.format_triplets
    "(alex:PERSON, graduated from, columbia university:LOCATION)"
    ["PERSON"; "LOCATION"]
  = Ok [["alex:PERSON"; "graduated from"; "columbia university:LOCATION"]].
Proof.
  apply (format_triplets_alex ["PERSON"; "LOCATION"]); simpl; auto.
Defined.

(** C3, as the specification words it, fails: the name is not the text
    before the last colon.  For the field a:b:PERSON that reading gives a:b,
    the code gives a. *)
Lemma name_not_before_last_colon :
  ~ (forall f0 f1 f2 f, standardize [f0; f1; f2] = Ok f ->
       entity1 f = lower (strip (before_last ":" f0))
       /\ type1 f = upper (strip (after_last ":" f0))).
Proof.
  intros H.
  destruct (H "a:b:PERSON" "knows" "c:PERSON" _ eq_refl) as [Hname _].
  discriminate Hname.
Qed.

(** C3, amended.  In a three-field group the name of an entity field is the
    text before its FIRST colon, lower-cased and trimmed, the type tag is the
    text after its LAST colon, upper-cased and trimmed, and the relation is
    the second field, lower-cased and trimmed; the field a:b:PERSON gives the
    name a and the type PERSON, and the validation-decision parser returns
    the entity a:PERSON for it. *)
Theorem fields_first_and_last_colon (f0 f1 f2 : string) :
  standardize [f0; f1; f2]
  = Ok {| entity1 := lower (strip (before_first ":" f0));
          type1 := upper (strip (after_last ":" f0));
          relation := lower (strip f1);
          entity2 := lower (strip (before_first ":" f2));
          type2 := upper (strip (after_last ":" f2)) |}
  /\ lower (strip (before_first ":" "a:b:PERSON")) = "a"
  /\ upper (strip (after_last ":" "a:b:PERSON")) = "PERSON"
  /\ BuilderPrompting.extract_new_triplet
       "Add triplet: (a:b:PERSON, knows, c:PERSON)" ["PERSON"]
     = Ok (DTuple ["a:PERSON"; "knows"; "c:PERSON"])
  /\ ExtractorPrompting.format_triplets
       "(a:b:PERSON, knows, c:PERSON)" ["PERSON"]
     = Ok [["a:PERSON"; "knows"; "c:PERSON"]].
Proof.
  split; [apply standardize_three|]. repeat split.
Qed.

(** C9. In extraction mode a three-field group with a type outside the
    whitelist contributes no triplet at all and leaves a warning naming the
    offending type; every triplet returned comes whole from a group whose two
    types are both allowed; and the list returned has no duplicates. *)
Theorem format_triplets_discards_whole (text : string) (allowed : list string) :
  exists valid warns,
    ExtractorPrompting.format_triplets_warn text allowed = Ok (valid, warns)
    /\ ExtractorPrompting.format_triplets text allowed = Ok valid
    /\ NoDup valid
    /\ (forall t, In t valid -> well_typed allowed t)
    /\ (forall r f,
          In r (findall_parens text) ->
          length (split "," r) = 3 ->
          standardize (split "," r) = Ok f ->
          ~ In (type1 f) allowed \/ ~ In (type2 f) allowed ->
          ~ In (triplet_of f) valid
          /\ exists ty, (ty = type1 f \/ ty = type2 f) /\ ~ In ty allowed
               /\ In ("Type " +++ ty +++ " is not in allowed types.") warns).
Proof.
  unfold ExtractorPrompting.format_triplets.
  rewrite format_triplets_warn_results. cbn [pybind fst].
  eexists _, _. split; [reflexivity|]. split; [reflexivity|].
  split; [apply NoDup_nodup|].
  assert (Hwt : forall t,
             In t (list_of_set
                     (lefts (map (group_result allowed) (findall_parens text))))
             -> well_typed allowed t).
  { intros t Ht.
    apply nodup_In, In_lefts, in_map_iff in Ht as (r & Hr & _).
    apply group_result_triplet in Hr as (f0 & f1 & f2 & _ & -> & H1 & H2).
    destruct (triplet_of_types f0 f1 f2) as (s & rel & o & E & Es & Eo).
    exists s, rel, o. rewrite Es, Eo. auto. }
  split; [exact Hwt|].
  intros r f Hr Hlen Hf Hbad.
  destruct (length_three _ Hlen) as (f0 & f1 & f2 & Es).
  rewrite Es, standardize_three in Hf. injection Hf as <-.
  split.
  - intros Hin. apply Hwt in Hin as (s & rel & o & E & H1 & H2).
    destruct (triplet_of_types f0 f1 f2) as (s' & rel' & o' & E' & Es' & Eo').
    rewrite E' in E. injection E as -> -> ->.
    rewrite Es' in H1. rewrite Eo' in H2. tauto.
  - assert (Hgr : In (group_result allowed r)
                    (map (group_result allowed) (findall_parens text)))
      by (apply in_map; assumption).
    unfold group_result in Hgr at 1. rewrite Es in Hgr. cbv zeta in Hgr.
    destruct (str_in (type1 (fields_of f0 f1 f2)) allowed) eqn:E1;
      cbn [negb] in Hgr.
    + destruct (str_in (type2 (fields_of f0 f1 f2)) allowed) eqn:E2;
        cbn [negb] in Hgr.
      * apply str_in_In in E1, E2. tauto.
      * exists (type2 (fields_of f0 f1 f2)). split; [now right|]. split.
        -- intros Hc. apply str_in_In in Hc. congruence.
        -- now apply In_rights.
    + exists (type1 (fields_of f0 f1 f2)). split; [now left|]. split.
      * intros Hc. apply str_in_In in Hc. congruence.
      * now apply In_rights.
Qed.

Lemma format_triplets_discards_whole_witness :
  exists valid warns,
    ExtractorPrompting.format_triplets_warn
      "(a:PERSON, met, b:ROBOT) (a:PERSON, met, c:PERSON)" ["PERSON"]
    = Ok (valid, warns)
    /\ ~ In ["a:PERSON"; "met"; "b:ROBOT"] valid
    /\ In "Type ROBOT is not in allowed types." warns.
Proof.
  destruct (format_triplets_discards_whole
              "(a:PERSON, met, b:ROBOT) (a:PERSON, met, c:PERSON)" ["PERSON"])
    as (valid & warns & Hrun & _ & _ & _ & Hgroups).
  exists valid, warns. split; [exact Hrun|].
  destruct (Hgroups "a:PERSON, met, b:ROBOT"
              (fields_of "a:PERSON" " met" " b:ROBOT"))
    as (Hout & ty & Hty & Hnot & Hwarn).
  - simpl. auto.
  - reflexivity.
  - reflexivity.
  - right. simpl. intros [H|[]]. discriminate H.
  - split; [exact Hout|].
    destruct Hty as [-> | ->].
    + exfalso. apply Hnot. simpl. auto.
    + exact Hwarn.
Defined.

(** ** Running the monad *)

Section MonadFacts.
Context {OracleState Store : Type}.
#[local] Abbreviation W := (world OracleState Store).
#[local] Abbreviation Mon := (@M OracleState Store).

Lemma bind_ok {A B} (m : Mon A) (k : A -> Mon B) (w w' : W) a :
  m w = (Ok a, w') -> bind m k w = k a w'.
Proof. intros H. unfold bind. now rewrite H. Qed.

Lemma bind_raise {A B} (m : Mon A) (k : A -> Mon B) (w w' : W) e :
  m w = (Raise e, w') -> bind m k w = (Raise e, w').
Proof. intros H. unfold bind. now rewrite H. Qed.

Lemma bind_ret_l {A B} (a : A) (k : A -> Mon B) (w : W) :
  bind (ret a) k w = k a w.
Proof. reflexivity. Qed.

Lemma bind_bind {A B C} (m : Mon A) (k : A -> Mon B) (h : B -> Mon C) (w : W) :
  bind (bind m k) h w = bind m (fun a => bind (k a) h) w.
Proof. unfold bind. destruct (m w) as [[a|e] w1]; reflexivity. Qed.

Lemma bind_ext_l {A B} (m m' : Mon A) (k : A -> Mon B) (w : W) :
  m w = m' w -> bind m k w = bind m' k w.
Proof. intros H. unfold bind. now rewrite H. Qed.

Variable I : Store -> Prop.
Variable good : event -> Prop.

Lemma keeps_ret {A} (a : A) (Q : A -> Prop) : Q a -> keeps (OracleState := OracleState) I good (ret a) Q.
Proof.
  intros HQ w r w' HI [= <- <-]. split; [assumption|]. split.
  - exists []. now rewrite app_nil_r.
  - now intros a' [= <-].
Qed.

Lemma keeps_lift {A} (r : pyres A) (Q : A -> Prop) :
  (forall a, r = Ok a -> Q a) -> keeps (OracleState := OracleState) I good (lift r) Q.
Proof.
  intros HQ w r' w' HI [= <- <-]. split; [assumption|]. split.
  - exists []. now rewrite app_nil_r.
  - exact HQ.
Qed.

Lemma keeps_bind {A B} (m : Mon A) (k : A -> Mon B) (P : A -> Prop)
    (Q : B -> Prop) :
  keeps (OracleState := OracleState) I good m P -> (forall a, P a -> keeps (OracleState := OracleState) I good (k a) Q) ->
  keeps (OracleState := OracleState) I good (bind m k) Q.
Proof.
  intros Hm Hk w r w' HI Hrun. unfold bind in Hrun.
  destruct (m w) as [[a|e] w1] eqn:Em.
  - destruct (Hm _ _ _ HI Em) as (HI1 & (evs1 & Et1 & Hg1) & HP).
    destruct (Hk a (HP a eq_refl) _ _ _ HI1 Hrun)
      as (HI2 & (evs2 & Et2 & Hg2) & HQ).
    split; [assumption|]. split; [|assumption].
    exists (evs1 ++ evs2). split.
    + now rewrite Et2, Et1, app_assoc.
    + apply Forall_app. now split.
  - injection Hrun as <- <-.
    destruct (Hm _ _ _ HI Em) as (HI1 & Hev & _).
    split; [assumption|]. split; [assumption|]. discriminate.
Qed.

Lemma keeps_weaken {A} (m : Mon A) (P Q : A -> Prop) :
  keeps (OracleState := OracleState) I good m P -> (forall a, P a -> Q a) -> keeps (OracleState := OracleState) I good m Q.
Proof.
  intros Hm HPQ w r w' HI Hrun.
  destruct (Hm _ _ _ HI Hrun) as (H1 & H2 & H3). auto.
Qed.

Lemma keeps_log e : good e -> keeps (OracleState := OracleState) I good (log e) (fun _ => True).
Proof.
  intros Hg w r w' HI [= <- <-]. cbn. split; [assumption|]. split; [|auto].
  exists [e]. split; [reflexivity|]. now constructor.
Qed.

Lemma keeps_read_store {A} (f : Store -> A) (Q : A -> Prop) :
  (forall st, I st -> Q (f st)) -> keeps (OracleState := OracleState) I good (read_store f) Q.
Proof.
  intros HQ w r w' HI [= <- <-]. split; [assumption|]. split.
  - exists []. now rewrite app_nil_r.
  - intros a [= <-]. auto.
Qed.

Lemma keeps_write_store (f : Store -> Store) :
  (forall st, I st -> I (f st)) ->
  keeps (OracleState := OracleState) I good (write_store f) (fun _ => True).
Proof.
  intros Hf w r w' HI [= <- <-]. cbn. split; [auto|]. split; [|auto].
  exists []. now rewrite app_nil_r.
Qed.

Lemma keeps_on_oracle {A} (f : OracleState -> pyres A * OracleState) :
  keeps (OracleState := OracleState) I good (on_oracle f) (fun _ => True).
Proof.
  intros w r w' HI Hrun. unfold on_oracle in Hrun.
  destruct (f (oracle w)) as [r1 os]. injection Hrun as <- <-. cbn.
  split; [assumption|]. split; [|auto].
  exists []. now rewrite app_nil_r.
Qed.

End MonadFacts.

(** ** The validation loop *)

Lemma retry_messages_append sp rel similar gen err al msgs :
  BuilderPrompting.get_messages sp rel similar al = Ok msgs ->
  BuilderPrompting.retry_messages sp rel similar gen err al
  = Ok (msgs ++ [BuilderPrompting.retry_message gen err]).
Proof.
  intros H. unfold BuilderPrompting.retry_messages. rewrite H. reflexivity.
Qed.

Section BuilderFacts.
Context {OracleState Store : Type}.
Variable ops : RelationsOps Store.
Variable eng : ChatEngine OracleState BuilderPromptingI.
#[local] Abbreviation W' := (world OracleState Store).

Lemma call_retrieve_run rel (w : W') :
  call_retrieve ops rel w
  = (Ok (retrieve_similar_triplets ops rel (store w)),
     after w (oracle w) [EvRetrieve rel]).
Proof. reflexivity. Qed.

Lemma call_engine_run {P} (e : ChatEngine OracleState P) msgs n (w : W') r os :
  chat_completion e msgs n (oracle w) = (r, os) ->
  call_engine e msgs n w = (r, after w os [EvChat (model_id e) msgs n]).
Proof.
  intros H. unfold call_engine, bind, log, on_oracle. cbn. now rewrite H.
Qed.

Lemma call_add_run ts passage (w : W') :
  call_add ops ts passage w
  = (Ok tt, {| oracle := oracle w;
               store := add_triplets ops ts passage (store w);
               trace := trace w ++ [EvAdd ts passage] |}).
Proof. reflexivity. Qed.

Lemma decision_from_messages_ok msgs n (w : W') gen os d :
  chat_completion eng msgs n (oracle w) = (Ok gen, os) ->
  bp_extract_new_triplet (prompting eng) gen
    (allowed_entity_types ops (store w)) = Ok d ->
  decision_from_messages ops eng msgs n w
  = (Ok (d, gen), after w os [EvChat (model_id eng) msgs n]).
Proof.
  intros Hc He. unfold decision_from_messages.
  rewrite (bind_ok _ _ _ (call_engine_run _ _ _ _ Hc)).
  unfold bind, read_store, lift, ret. cbn. now rewrite He.
Qed.

Lemma decision_from_messages_parse_raise msgs n (w : W') gen os e :
  chat_completion eng msgs n (oracle w) = (Ok gen, os) ->
  bp_extract_new_triplet (prompting eng) gen
    (allowed_entity_types ops (store w)) = Raise e ->
  decision_from_messages ops eng msgs n w
  = (Raise e, after w os [EvChat (model_id eng) msgs n]).
Proof.
  intros Hc He. unfold decision_from_messages.
  rewrite (bind_ok _ _ _ (call_engine_run _ _ _ _ Hc)).
  unfold bind, read_store, lift, ret. cbn. now rewrite He.
Qed.

Lemma decision_from_messages_raise msgs n (w : W') e os :
  chat_completion eng msgs n (oracle w) = (Raise e, os) ->
  decision_from_messages ops eng msgs n w
  = (Raise e, after w os [EvChat (model_id eng) msgs n]).
Proof.
  intros Hc. unfold decision_from_messages.
  now rewrite (bind_raise _ _ _ (call_engine_run _ _ _ _ Hc)).
Qed.

Lemma validate_relation_eq rel similar (w : W') msgs :
  bp_get_messages (prompting eng) rel similar
    (allowed_entity_types ops (store w)) = Ok msgs ->
  validate_relation ops eng rel similar w
  = decision_from_messages ops eng msgs 512%Z w.
Proof.
  intros Hm. unfold validate_relation, bind, read_store, lift.
  now rewrite Hm.
Qed.

Lemma retry_validation_eq rel err gen similar (w : W') msgs :
  bp_retry_messages (prompting eng) rel similar gen err
    (allowed_entity_types ops (store w)) = Ok msgs ->
  retry_validation ops eng rel err gen similar w
  = decision_from_messages ops eng msgs 1024%Z w.
Proof.
  intros Hm. unfold retry_validation, bind, read_store, lift.
  now rewrite Hm.
Qed.

Lemma after_after (w : W') os1 evs1 os2 evs2 :
  after (after w os1 evs1) os2 evs2 = after w os2 (evs1 ++ evs2).
Proof. unfold after. cbn. now rewrite app_assoc. Qed.

Lemma after_store (w : W') os evs : store (after w os evs) = store w.
Proof. reflexivity. Qed.

Lemma after_oracle (w : W') os evs : oracle (after w os evs) = os.
Proof. reflexivity. Qed.

(** The loop body, read as: decide, then append and commit or move on. *)
Lemma build_kg_loop_decide rel rest passage added (w : W') :
  build_kg_loop ops eng (rel :: rest) passage added w =
  bind (decide_candidate ops eng rel)
       (fun d => match d with
                 | DTuple t =>
                     bind (append_and_add ops t passage added)
                          (fun added' => build_kg_loop ops eng rest passage added')
                 | DNone | DStr _ => build_kg_loop ops eng rest passage added
                 end) w.
Proof.
  cbn [build_kg_loop]. unfold decide_candidate, bind.
  destruct (call_retrieve ops rel w) as [[similar|e] w0]; [|reflexivity].
  destruct (validate_relation ops eng rel similar w0) as [[[d gen]|e] w1];
    [|reflexivity].
  cbn [fst snd]. destruct d as [|err|t]; try reflexivity.
  destruct (retry_validation ops eng rel err gen similar w1)
    as [[[d2 gen2]|e] w2]; [|reflexivity].
  cbn [fst]. destruct d2; reflexivity.
Qed.

Lemma append_and_add_run t passage added (w : W') :
  append_and_add ops t passage added w
  = (Ok (added ++ [t]),
     if 0 <? length t
     then {| oracle := oracle w;
             store := add_triplets ops [t] passage (store w);
             trace := trace w ++ [EvAdd [t] passage] |}
     else w).
Proof.
  unfold append_and_add. destruct (0 <? length t); reflexivity.
Qed.

(** *** Deciding one candidate, call by call *)

Section OneCandidate.
Variables (rel : pytuple) (w : W').
Let al := allowed_entity_types ops (store w).
Let similar := retrieve_similar_triplets ops rel (store w).
Let model := model_id eng.

Lemma decide_messages_raise e :
  bp_get_messages (prompting eng) rel similar al = Raise e ->
  decide_candidate ops eng rel w = (Raise e, after w (oracle w) [EvRetrieve rel]).
Proof.
  intros Hm. unfold decide_candidate.
  rewrite (bind_ok _ _ _ (call_retrieve_run rel w)).
  apply bind_raise. unfold validate_relation, bind, read_store, lift.
  cbn [after store]. fold al similar. now rewrite Hm.
Qed.

Lemma decide_first_raise msgs e os1 :
  bp_get_messages (prompting eng) rel similar al = Ok msgs ->
  chat_completion eng msgs 512%Z (oracle w) = (Raise e, os1) ->
  decide_candidate ops eng rel w
  = (Raise e, after w os1 [EvRetrieve rel; EvChat model msgs 512%Z]).
Proof.
  intros Hm Hc. unfold decide_candidate.
  rewrite (bind_ok _ _ _ (call_retrieve_run rel w)).
  apply bind_raise. rewrite validate_relation_eq with (msgs := msgs) by exact Hm.
  rewrite decision_from_messages_raise with (e := e) (os := os1) by exact Hc.
  now rewrite after_after.
Qed.

Lemma decide_first_ok msgs gen1 os1 d :
  bp_get_messages (prompting eng) rel similar al = Ok msgs ->
  chat_completion eng msgs 512%Z (oracle w) = (Ok gen1, os1) ->
  bp_extract_new_triplet (prompting eng) gen1 al = Ok d ->
  decide_candidate ops eng rel w =
  let w1 := after w os1 [EvRetrieve rel; EvChat model msgs 512%Z] in
  match d with
  | DStr err =>
      bind (retry_validation ops eng rel err gen1 similar)
           (fun dg' => ret (fst dg')) w1
  | DNone | DTuple _ => (Ok d, w1)
  end.
Proof.
  intros Hm Hc He. unfold decide_candidate.
  rewrite (bind_ok _ _ _ (call_retrieve_run rel w)).
  assert (Hv : validate_relation ops eng rel similar
                 (after w (oracle w) [EvRetrieve rel])
               = (Ok (d, gen1),
                  after w os1 [EvRetrieve rel; EvChat model msgs 512%Z])).
  { rewrite validate_relation_eq with (msgs := msgs) by exact Hm.
    rewrite decision_from_messages_ok with (gen := gen1) (os := os1) (d := d)
      by assumption.
    now rewrite after_after. }
  fold similar. rewrite (bind_ok _ _ _ Hv). cbn [fst snd].
  destruct d; reflexivity.
Qed.

Lemma decide_retry_raise msgs gen1 os1 err msgs2 e os2 :
  bp_get_messages (prompting eng) rel similar al = Ok msgs ->
  chat_completion eng msgs 512%Z (oracle w) = (Ok gen1, os1) ->
  bp_extract_new_triplet (prompting eng) gen1 al = Ok (DStr err) ->
  bp_retry_messages (prompting eng) rel similar gen1 err al = Ok msgs2 ->
  chat_completion eng msgs2 1024%Z os1 = (Raise e, os2) ->
  decide_candidate ops eng rel w
  = (Raise e, after w os2 [EvRetrieve rel; EvChat model msgs 512%Z;
                            EvChat model msgs2 1024%Z]).
Proof.
  intros Hm Hc He Hm2 Hc2.
  rewrite (decide_first_ok Hm Hc He). cbv zeta.
  apply bind_raise.
  rewrite retry_validation_eq with (msgs := msgs2) by exact Hm2.
  rewrite decision_from_messages_raise with (e := e) (os := os2) by exact Hc2.
  now rewrite after_after.
Qed.

Lemma decide_retry_ok msgs gen1 os1 err msgs2 gen2 os2 d2 :
  bp_get_messages (prompting eng) rel similar al = Ok msgs ->
  chat_completion eng msgs 512%Z (oracle w) = (Ok gen1, os1) ->
  bp_extract_new_triplet (prompting eng) gen1 al = Ok (DStr err) ->
  bp_retry_messages (prompting eng) rel similar gen1 err al = Ok msgs2 ->
  chat_completion eng msgs2 1024%Z os1 = (Ok gen2, os2) ->
  bp_extract_new_triplet (prompting eng) gen2 al = Ok d2 ->
  decide_candidate ops eng rel w
  = (Ok d2, after w os2 [EvRetrieve rel; EvChat model msgs 512%Z;
                          EvChat model msgs2 1024%Z]).
Proof.
  intros Hm Hc He Hm2 Hc2 He2.
  rewrite (decide_first_ok Hm Hc He). cbv zeta.
  assert (Hr : retry_validation ops eng rel err gen1 similar
                 (after w os1 [EvRetrieve rel; EvChat model msgs 512%Z])
               = (Ok (d2, gen2),
                  after w os2 [EvRetrieve rel; EvChat model msgs 512%Z;
                               EvChat model msgs2 1024%Z])).
  { rewrite retry_validation_eq with (msgs := msgs2) by exact Hm2.
    rewrite decision_from_messages_ok with (gen := gen2) (os := os2) (d := d2)
      by assumption.
    now rewrite after_after. }
  now rewrite (bind_ok _ _ _ Hr).
Qed.

End OneCandidate.

End BuilderFacts.

(** *** What a candidate's decision and the whole loop may do to the world *)

Section LoopInvariant.
Context {OracleState Store : Type}.
Variable ops : RelationsOps Store.
Variable eng : ChatEngine OracleState BuilderPromptingI.
Variable I : Store -> Prop.
Variable good : event -> Prop.
Variable Q : decision -> Prop.
Hypothesis good_retrieve : forall rel, good (EvRetrieve rel).
Hypothesis good_chat : forall m msgs n, good (EvChat m msgs n).
Hypothesis parsed : forall gen st d,
  I st ->
  bp_extract_new_triplet (prompting eng) gen (allowed_entity_types ops st) = Ok d ->
  Q d.

Lemma keeps_call_engine {P} (e : ChatEngine OracleState P) msgs n :
  keeps (OracleState := OracleState) I good (call_engine e msgs n) (fun _ => True).
Proof.
  unfold call_engine.
  apply keeps_bind with (P := fun _ => True); [now apply keeps_log|].
  intros _ _. apply keeps_on_oracle.
Qed.

Lemma keeps_decision_from_messages msgs n :
  keeps (OracleState := OracleState) I good (decision_from_messages ops eng msgs n) (fun dg => Q (fst dg)).
Proof.
  unfold decision_from_messages.
  apply keeps_bind with (P := fun _ => True); [apply keeps_call_engine|].
  intros decoded _.
  apply keeps_bind
    with (P := fun al => exists st, I st /\ al = allowed_entity_types ops st).
  { apply keeps_read_store. intros st Hst. now exists st. }
  intros al (st & Hst & ->).
  apply keeps_bind with (P := Q).
  { apply keeps_lift. intros d Hd. exact (parsed _ Hst Hd). }
  intros d Hd. now apply keeps_ret.
Qed.

Lemma keeps_validate_relation rel similar :
  keeps (OracleState := OracleState) I good (validate_relation ops eng rel similar) (fun dg => Q (fst dg)).
Proof.
  unfold validate_relation.
  apply keeps_bind with (P := fun _ => True);
    [now apply keeps_read_store|].
  intros al _. apply keeps_bind with (P := fun _ => True);
    [now apply keeps_lift|].
  intros msgs _. apply keeps_decision_from_messages.
Qed.

Lemma keeps_retry_validation rel err gen similar :
  keeps (OracleState := OracleState) I good (retry_validation ops eng rel err gen similar)
    (fun dg => Q (fst dg)).
Proof.
  unfold retry_validation.
  apply keeps_bind with (P := fun _ => True);
    [now apply keeps_read_store|].
  intros al _. apply keeps_bind with (P := fun _ => True);
    [now apply keeps_lift|].
  intros msgs _. apply keeps_decision_from_messages.
Qed.

Lemma keeps_decide_candidate rel :
  keeps (OracleState := OracleState) I good (decide_candidate ops eng rel) Q.
Proof.
  unfold decide_candidate.
  apply keeps_bind with (P := fun _ => True).
  { unfold call_retrieve.
    apply keeps_bind with (P := fun _ => True); [now apply keeps_log|].
    intros _ _. now apply keeps_read_store. }
  intros similar _.
  apply keeps_bind with (P := fun dg => Q (fst dg));
    [apply keeps_validate_relation|].
  intros [d gen] Hd. cbn [fst snd] in *.
  destruct d as [|err|t]; try now apply keeps_ret.
  apply keeps_bind with (P := fun dg => Q (fst dg));
    [apply keeps_retry_validation|].
  intros dg' Hdg'. now apply keeps_ret.
Qed.

Hypothesis add_keeps : forall t passage st,
  Q (DTuple t) -> I st -> I (add_triplets ops [t] passage st).
Hypothesis good_add : forall t passage, Q (DTuple t) -> good (EvAdd [t] passage).

Lemma keeps_append_and_add t passage added :
  Q (DTuple t) ->
  keeps (OracleState := OracleState) I good
    (append_and_add ops t passage added) (fun _ => True).
Proof.
  intros Ht. unfold append_and_add.
  apply keeps_bind with (P := fun _ => True); [|intros; now apply keeps_ret].
  destruct (0 <? length t); [|now apply keeps_ret].
  unfold call_add. apply keeps_bind with (P := fun _ => True).
  - apply keeps_log. now apply good_add.
  - intros _ _. apply keeps_write_store. intros st Hst. now apply add_keeps.
Qed.

Lemma keeps_build_kg_loop proposed passage added :
  keeps (OracleState := OracleState) I good (build_kg_loop ops eng proposed passage added) (fun _ => True).
Proof.
  revert added. induction proposed as [|rel rest IH]; intros added.
  - now apply keeps_ret.
  - intros w r w' HI Hrun. rewrite build_kg_loop_decide in Hrun.
    revert w r w' HI Hrun. fold (keeps (OracleState := OracleState) I good
      (bind (decide_candidate ops eng rel)
         (fun d => match d with
                   | DTuple t =>
                       bind (append_and_add ops t passage added)
                         (fun added' => build_kg_loop ops eng rest passage added')
                   | DNone | DStr _ => build_kg_loop ops eng rest passage added
                   end)) (fun _ => True)).
    apply keeps_bind with (P := Q); [apply keeps_decide_candidate|].
    intros d Hd. destruct d as [|err|t]; try apply IH.
    apply keeps_bind with (P := fun _ => True);
      [now apply keeps_append_and_add|].
    intros added' _. apply IH.
Qed.

End LoopInvariant.

(** *** The call layer *)

Section CallLayer.
Context {OracleState : Type}.
Variable call : OracleState -> pyres string * OracleState.

Lemma retry_exhausted n os os' :
  failed_attempts call n os os' -> retry n call os = (Raise RetryError, os').
Proof.
  induction 1 as [os|n os e os1 os' Hc _ IH]; [reflexivity|].
  cbn [retry]. now rewrite Hc.
Qed.

Lemma retry_raises n os e os' :
  retry n call os = (Raise e, os') ->
  e = RetryError /\ failed_attempts call n os os'.
Proof.
  revert os. induction n as [|n IH]; intros os H; cbn [retry] in H.
  - injection H as <- <-. split; [reflexivity|constructor].
  - destruct (call os) as [[text|e1] os1] eqn:Ec; [discriminate|].
    destruct (IH _ H) as [-> Hf]. split; [reflexivity|].
    econstructor; eassumption.
Qed.

End CallLayer.

(** ** The claims on the validation stage *)

Section BuilderClaims.
Context {OracleState Store : Type}.
Variable ops : RelationsOps Store.
#[local] Abbreviation Wd := (world OracleState Store).

(** C1, amended. When the decision for a candidate is a tuple, the tuple is
    appended to the list [build_kg] returns whatever its length, and
    [add_triplets] is left out only when that length is zero.  The tuples
    that [BuilderPrompting.extract_new_triplet] returns have three fields,
    so with the repository's prompting every accepted triplet is committed,
    also one whose names and relation are empty after normalisation. *)
Theorem accepted_triplet_commit_rule
    (eng : ChatEngine OracleState BuilderPromptingI)
    (rel : pytuple) (rest : list pytuple) (passage : string)
    (added : list pytuple) (w w1 : Wd) (t : pytuple) :
  decide_candidate ops eng rel w = (Ok (DTuple t), w1) ->
  let committed :=
    {| oracle := oracle w1;
       store := add_triplets ops [t] passage (store w1);
       trace := trace w1 ++ [EvAdd [t] passage] |} in
  build_kg_loop ops eng (rel :: rest) passage added w
  = build_kg_loop ops eng rest passage (added ++ [t])
      (if 0 <? length t then committed else w1)
  /\ (forall sp, prompting eng = builder_prompting sp ->
        length t = 3
        /\ build_kg_loop ops eng (rel :: rest) passage added w
           = build_kg_loop ops eng rest passage (added ++ [t]) committed).
Proof.
  intros Hd committed.
  assert (Hrun : build_kg_loop ops eng (rel :: rest) passage added w
                 = build_kg_loop ops eng rest passage (added ++ [t])
                     (if 0 <? length t then committed else w1)).
  { rewrite build_kg_loop_decide, (bind_ok _ _ _ Hd).
    erewrite bind_ok by apply append_and_add_run. reflexivity. }
  split; [exact Hrun|].
  intros sp Hp.
  assert (Hk : keeps (fun _ => True) (fun _ => True)
                 (decide_candidate ops eng rel)
                 (fun d => match d with
                           | DTuple t' => length t' = 3
                           | _ => True
                           end)).
  { apply keeps_decide_candidate; try (intros; exact Logic.I).
    intros gen st d _ Hparse. rewrite Hp in Hparse.
    cbn [builder_prompting bp_extract_new_triplet] in Hparse.
    destruct (extract_new_triplet_cases gen (allowed_entity_types ops st))
      as (d' & Hd' & Hcase).
    rewrite Hparse in Hd'. injection Hd' as <-.
    destruct d as [|err|t']; try exact Logic.I.
    destruct Hcase as (f0 & f1 & f2 & -> & _). reflexivity. }
  destruct (Hk _ _ _ Logic.I Hd) as (_ & _ & Hq).
  assert (Hlen : length t = 3) by exact (Hq _ eq_refl).
  split; [exact Hlen|].
  rewrite Hrun, Hlen. reflexivity.
Qed.

(** C5. When the first parse is an error string, one retry is issued, its
    prompt being the first one followed by one user message whose text is
    [Your last generation:], the first generation, and
    [generated the following error message:] followed by the error string,
    which is the list [retry_messages] returns; a triplet parsed from the
    retry is committed, an error or a no-op parsed from it drops the
    candidate without any further call, and in both cases the loop goes on
    with the remaining candidates. *)
Theorem retry_once_then_commit_or_discard
    (eng : ChatEngine OracleState BuilderPromptingI) (sp : string)
    (rel : pytuple) (rest : list pytuple) (passage : string)
    (added : list pytuple) (w : Wd)
    (msgs : list message) (gen1 : string) (os1 : OracleState) (err : string)
    (gen2 : string) (os2 : OracleState) (d2 : decision) :
  let al := allowed_entity_types ops (store w) in
  let similar := retrieve_similar_triplets ops rel (store w) in
  let annotated :=
    {| role := "user";
       content := "Your last generation:" +++ nl +++ " " +++ gen1 +++ nl
                  +++ " generated the following error message:" +++ err |} in
  let msgs2 := msgs ++ [annotated] in
  let tried := [EvRetrieve rel; EvChat (model_id eng) msgs 512%Z;
                EvChat (model_id eng) msgs2 1024%Z] in
  prompting eng = builder_prompting sp ->
  BuilderPrompting.get_messages sp rel similar al = Ok msgs ->
  chat_completion eng msgs 512%Z (oracle w) = (Ok gen1, os1) ->
  BuilderPrompting.extract_new_triplet gen1 al = Ok (DStr err) ->
  chat_completion eng msgs2 1024%Z os1 = (Ok gen2, os2) ->
  BuilderPrompting.extract_new_triplet gen2 al = Ok d2 ->
  bp_retry_messages (prompting eng) rel similar gen1 err al = Ok msgs2
  /\ build_kg_loop ops eng (rel :: rest) passage added w =
     match d2 with
  | DTuple t =>
      build_kg_loop ops eng rest passage (added ++ [t])
        {| oracle := os2;
           store := add_triplets ops [t] passage (store w);
           trace := trace w ++ tried ++ [EvAdd [t] passage] |}
  | DNone | DStr _ =>
      build_kg_loop ops eng rest passage added (after w os2 tried)
  end.
Proof.
  intros al similar annotated msgs2 tried Hp Hm Hc1 He1 Hc2 He2.
  assert (Hr : bp_retry_messages (prompting eng) rel similar gen1 err al
               = Ok msgs2).
  { rewrite Hp. cbn [builder_prompting bp_retry_messages].
    unfold BuilderPrompting.retry_messages. rewrite Hm. reflexivity. }
  split; [exact Hr|].
  assert (Hd : decide_candidate ops eng rel w = (Ok d2, after w os2 tried)).
  { apply decide_retry_ok with (gen1 := gen1) (os1 := os1) (err := err)
                               (gen2 := gen2);
      try exact Hr;
      rewrite ?Hp; cbn [builder_prompting bp_get_messages bp_retry_messages
                          bp_extract_new_triplet]; assumption. }
  rewrite build_kg_loop_decide, (bind_ok _ _ _ Hd).
  destruct d2 as [|err2|t]; try reflexivity.
  erewrite bind_ok by apply append_and_add_run.
  destruct (extract_new_triplet_cases gen2 al) as (d & Hd2 & Hcase).
  rewrite He2 in Hd2. injection Hd2 as <-.
  destruct Hcase as (f0 & f1 & f2 & -> & _).
  cbn [triplet_of length Nat.ltb Nat.leb after oracle store trace].
  now rewrite <- app_assoc.
Qed.

(** C8. When the first parse is an error string, the retry prompt is built
    from the list that the one retrieval before the first attempt returned:
    the calls made for the candidate are that retrieval, the first chat and
    the retry chat, followed at most by commits, and no other retrieval. *)
Theorem retry_reuses_retrieval
    (eng : ChatEngine OracleState BuilderPromptingI)
    (rel : pytuple) (passage : string) (w : Wd)
    (msgs : list message) (gen1 : string) (os1 : OracleState) (err : string)
    (msgs2 : list message) (r : pyres (list pytuple)) (w' : Wd) :
  let al := allowed_entity_types ops (store w) in
  let similar := retrieve_similar_triplets ops rel (store w) in
  bp_get_messages (prompting eng) rel similar al = Ok msgs ->
  chat_completion eng msgs 512%Z (oracle w) = (Ok gen1, os1) ->
  bp_extract_new_triplet (prompting eng) gen1 al = Ok (DStr err) ->
  bp_retry_messages (prompting eng) rel similar gen1 err al = Ok msgs2 ->
  build_kg ops eng [rel] passage w = (r, w') ->
  exists commits,
    trace w' = trace w ++ [EvRetrieve rel; EvChat (model_id eng) msgs 512%Z;
                           EvChat (model_id eng) msgs2 1024%Z] ++ commits
    /\ Forall (fun e => exists t, e = EvAdd [t] passage) commits.
Proof.
  intros al similar Hm Hc1 He1 Hm2 Hrun.
  unfold build_kg in Hrun. rewrite build_kg_loop_decide in Hrun.
  destruct (chat_completion eng msgs2 1024%Z os1) as [[gen2|e] os2] eqn:Hc2.
  - destruct (bp_extract_new_triplet (prompting eng) gen2 al) as [d2|e] eqn:He2.
    + rewrite (bind_ok _ _ _ (decide_retry_ok ops eng rel w Hm Hc1 He1 Hm2 Hc2 He2))
        in Hrun.
      destruct d2 as [|err2|t].
      * injection Hrun as <- <-. exists []. split; [reflexivity|constructor].
      * injection Hrun as <- <-. exists []. split; [reflexivity|constructor].
      * erewrite bind_ok in Hrun by apply append_and_add_run.
        cbn [build_kg_loop ret] in Hrun. injection Hrun as <- <-.
        destruct (0 <? length t).
        -- exists [EvAdd [t] passage]. cbn [trace after].
           split; [now rewrite <- app_assoc|].
           constructor; [now exists t|constructor].
        -- exists []. split; [reflexivity|constructor].
    + assert (Hd : decide_candidate ops eng rel w
                   = (Raise e, after w os2
                        [EvRetrieve rel; EvChat (model_id eng) msgs 512%Z;
                         EvChat (model_id eng) msgs2 1024%Z])).
      { rewrite (decide_first_ok ops eng rel w Hm Hc1 He1). cbv zeta.
        apply bind_raise.
        rewrite retry_validation_eq with (msgs := msgs2) by exact Hm2.
        rewrite decision_from_messages_parse_raise
          with (gen := gen2) (os := os2) (e := e) by assumption.
        now rewrite after_after. }
      rewrite (bind_raise _ _ _ Hd) in Hrun. injection Hrun as <- <-.
      exists []. split; [reflexivity|constructor].
  - rewrite (bind_raise _ _ _
               (decide_retry_raise ops eng rel w Hm Hc1 He1 Hm2 Hc2)) in Hrun.
    injection Hrun as <- <-. exists []. split; [reflexivity|constructor].
Qed.

(** C6. With the validation-decision parser of [BuilderPrompting], every
    triplet handed to [add_triplets] by [build_kg] has a subject and an
    object whose type tags are in the whitelist of the store; the parser
    itself never returns a tuple with a tag outside the whitelist. *)
Theorem commits_are_well_typed
    (eng : ChatEngine OracleState BuilderPromptingI)
    (proposed : list pytuple) (passage : string) (w : Wd)
    (r : pyres (list pytuple)) (w' : Wd) :
  (forall ts p st, allowed_entity_types ops (add_triplets ops ts p st)
                   = allowed_entity_types ops st) ->
  bp_extract_new_triplet (prompting eng) = BuilderPrompting.extract_new_triplet ->
  build_kg ops eng proposed passage w = (r, w') ->
  (forall gen al t,
      BuilderPrompting.extract_new_triplet gen al = Ok (DTuple t) ->
      well_typed al t)
  /\ allowed_entity_types ops (store w') = allowed_entity_types ops (store w)
  /\ exists evs, trace w' = trace w ++ evs
       /\ forall ts p, In (EvAdd ts p) evs ->
            Forall (well_typed (allowed_entity_types ops (store w))) ts.
Proof.
  intros Hadd Hp Hrun.
  assert (Hparse : forall gen al t,
             BuilderPrompting.extract_new_triplet gen al = Ok (DTuple t) ->
             well_typed al t).
  { intros gen al t H.
    destruct (extract_new_triplet_cases gen al) as (d & Hd & Hcase).
    rewrite H in Hd. injection Hd as <-.
    destruct Hcase as (f0 & f1 & f2 & -> & H1 & H2).
    destruct (triplet_of_types f0 f1 f2) as (s & rel & o & E & Es & Eo).
    exists s, rel, o. rewrite Es, Eo. auto. }
  split; [exact Hparse|].
  set (al := allowed_entity_types ops (store w)).
  assert (Hk : keeps (fun st => allowed_entity_types ops st = al)
                 (fun e => match e with
                           | EvAdd ts _ => Forall (well_typed al) ts
                           | _ => True
                           end)
                 (build_kg_loop ops eng proposed passage [])
                 (fun _ => True)).
  { apply keeps_build_kg_loop
      with (Q := fun d => match d with
                          | DTuple t => well_typed al t
                          | _ => True
                          end).
    - intros; exact Logic.I.
    - intros; exact Logic.I.
    - intros gen st d Hst Hd. rewrite Hp in Hd. destruct d; try exact Logic.I.
      rewrite Hst in Hd. now apply Hparse in Hd.
    - intros t p st _ Hst. now rewrite Hadd.
    - intros t p Ht. now repeat constructor. }
  destruct (Hk w r w' eq_refl Hrun) as (Hal & (evs & Et & Hg) & _).
  - split; [exact Hal|]. exists evs. split; [assumption|].
    intros ts p Hin. rewrite Forall_forall in Hg. exact (Hg _ Hin).
Qed.

End BuilderClaims.

(** ** The orchestrator *)

Section WorkflowFacts.
Context {OracleState Store : Type}.
Variable ops : RelationsOps Store.
Variable split_text : string -> list string.
Variable be : ChatEngine OracleState BuilderPromptingI.
Variable xe : ChatEngine OracleState ExtractorPromptingI.
#[local] Abbreviation Ww := (world OracleState Store).

Lemma extract_loop_in_order chunks acc (w : Ww) :
  extract_loop ops xe chunks acc w
  = bind (extract_in_order ops xe chunks) (fun ext => ret (acc ++ ext)) w.
Proof.
  revert acc w. induction chunks as [|c chunks IH]; intros acc w.
  - cbn. unfold bind, ret. now rewrite app_nil_r.
  - cbn [extract_loop extract_in_order]. unfold bind at 1 2 3 4 5.
    unfold read_store at 1 2.
    destruct (extract_from_passage xe c (allowed_entity_types ops (store w)) w)
      as [[ts|e] w1]; [|reflexivity].
    rewrite IH. unfold bind.
    destruct (extract_in_order ops xe chunks w1) as [[ext|e] w2];
      [|reflexivity].
    unfold ret. now rewrite <- app_assoc.
Qed.

Lemma extract_from_passage_run c al (w w1 : Ww) ts :
  extract_from_passage xe c al w = (Ok ts, w1) ->
  store w1 = store w
  /\ trace w1 = trace w
       ++ [EvChat (model_id xe) (ep_get_messages (prompting xe) c al) 4096%Z].
Proof.
  unfold extract_from_passage, call_engine, bind, log, on_oracle, lift. cbn.
  destruct (chat_completion xe (ep_get_messages (prompting xe) c al) 4096%Z
              (oracle w)) as [[decoded|e] os]; [|discriminate].
  intros [= _ <-]. split; reflexivity.
Qed.

Lemma extract_in_order_run chunks (w w1 : Ww) ext :
  extract_in_order ops xe chunks w = (Ok ext, w1) ->
  length ext = length chunks
  /\ store w1 = store w
  /\ trace w1 = trace w
       ++ map (fun c => EvChat (model_id xe)
                          (ep_get_messages (prompting xe) c
                             (allowed_entity_types ops (store w))) 4096%Z)
              chunks.
Proof.
  revert w ext. induction chunks as [|c chunks IH]; intros w ext.
  - intros [= <- <-]. cbn. now rewrite app_nil_r.
  - cbn [extract_in_order]. unfold bind at 1 2 3. unfold read_store at 1.
    destruct (extract_from_passage xe c (allowed_entity_types ops (store w)) w)
      as [[ts|e] w0] eqn:Ex; [|discriminate].
    destruct (extract_from_passage_run _ _ _ Ex) as [Hs0 Ht0].
    destruct (extract_in_order ops xe chunks w0) as [[ext'|e] w2] eqn:Er;
      [|discriminate].
    intros [= <- <-].
    destruct (IH _ _ Er) as (Hlen & Hs & Ht).
    cbn [length map]. split; [now rewrite Hlen|].
    split; [congruence|].
    rewrite Ht, Ht0, Hs0, <- app_assoc. reflexivity.
Qed.

Lemma build_loop_in_order chunks pre post (w : Ww) :
  length post = length chunks ->
  build_loop ops be (Z.of_nat (length pre)) chunks (pre ++ post) w
  = validate_in_order ops be (combine chunks post) w.
Proof.
  revert pre post w. induction chunks as [|c chunks IH]; intros pre post w Hlen.
  - reflexivity.
  - destruct post as [|p post]; [discriminate|]. injection Hlen as Hlen.
    cbn [build_loop combine validate_in_order].
    assert (Hget : getitem (pre ++ p :: post) (Z.of_nat (length pre)) = Ok p).
    { apply getitem_nonneg.
      now rewrite nth_error_app2, Nat.sub_diag by lia. }
    unfold bind at 1. unfold lift at 1. rewrite Hget.
    unfold bind.
    destruct (build_kg ops be p c w) as [[added|e] w1]; [|reflexivity].
    replace (Z.of_nat (length pre) + 1)%Z with (Z.of_nat (length (pre ++ [p])))
      by (rewrite length_app; simpl; lia).
    replace (pre ++ p :: post) with ((pre ++ [p]) ++ post)
      by (now rewrite <- app_assoc).
    now apply IH.
Qed.

(** C7. The orchestrator is extraction over all passages in document order
    followed by validation in passage order, candidate list [i] being
    validated with passage [i] as provenance: the indexing of the second loop
    never fails.  A completed extraction phase has made one extractor call
    per passage, in order, has produced one candidate list per passage and
    has not touched the store. *)
Theorem workflow_extracts_then_validates (text : string)
    (delete_models_after_use : bool) (w : Ww) :
  let chunks := split_text text in
  workflow ops split_text be xe text delete_models_after_use w
  = (extracted <- extract_in_order ops xe chunks ;;
     (if delete_models_after_use then call_clear xe else ret tt) ;;;
     validate_in_order ops be (combine chunks extracted) ;;;
     (if delete_models_after_use then call_clear be else ret tt))%kg w
  /\ forall extracted w1,
       extract_in_order ops xe chunks w = (Ok extracted, w1) ->
       length extracted = length chunks
       /\ store w1 = store w
       /\ trace w1 = trace w
            ++ map (fun c => EvChat (model_id xe)
                               (ep_get_messages (prompting xe) c
                                  (allowed_entity_types ops (store w)))
                               4096%Z) chunks.
Proof.
  intros chunks. split; [|intros; now apply extract_in_order_run].
  unfold workflow. fold chunks.
  erewrite bind_ext_l by apply extract_loop_in_order. rewrite bind_bind.
  destruct (extract_in_order ops xe chunks w) as [[ext|e] w1] eqn:Ex;
    [|now rewrite !(bind_raise _ _ _ Ex)].
  rewrite !(bind_ok _ _ _ Ex), bind_ret_l. cbn [app].
  destruct (extract_in_order_run _ _ Ex) as (Hlen & _ & _).
  destruct ((if delete_models_after_use then call_clear xe else ret tt) w1)
    as [[u|e] w2] eqn:Ec; [|now rewrite !(bind_raise _ _ _ Ec)].
  rewrite !(bind_ok _ _ _ Ec).
  apply bind_ext_l. exact (build_loop_in_order chunks [] ext w2 Hlen).
Qed.

End WorkflowFacts.

(** ** An oracle call that fails for good *)

Section SplitRuns.
Context {OracleState Store : Type}.
Variable ops : RelationsOps Store.
Variable be : ChatEngine OracleState BuilderPromptingI.

Lemma build_kg_loop_app done rest passage added (w : world OracleState Store) :
  build_kg_loop ops be (done ++ rest) passage added w
  = bind (build_kg_loop ops be done passage added)
         (fun added' => build_kg_loop ops be rest passage added') w.
Proof.
  revert added w. induction done as [|rel done IH]; intros added w.
  - reflexivity.
  - cbn [app]. rewrite build_kg_loop_decide.
    erewrite (bind_ext_l (build_kg_loop ops be (rel :: done) passage added))
      by apply build_kg_loop_decide.
    rewrite bind_bind.
    destruct (decide_candidate ops be rel w) as [[d|e] w1] eqn:Ed;
      [|now rewrite !(bind_raise _ _ _ Ed)].
    rewrite !(bind_ok _ _ _ Ed).
    destruct d as [|err|t]; try apply IH.
    rewrite bind_bind.
    rewrite !(bind_ok _ _ _ (append_and_add_run ops t passage added w1)).
    apply IH.
Qed.

Lemma validate_in_order_app work later (w : world OracleState Store) :
  validate_in_order ops be (work ++ later) w
  = bind (validate_in_order ops be work)
         (fun _ => validate_in_order ops be later) w.
Proof.
  revert w. induction work as [|[passage candidates] work IH]; intros w.
  - reflexivity.
  - cbn [app validate_in_order]. rewrite bind_bind.
    destruct (build_kg ops be candidates passage w) as [[added|e] w1] eqn:Eb;
      [|now rewrite !(bind_raise _ _ _ Eb)].
    rewrite !(bind_ok _ _ _ Eb). apply IH.
Qed.

End SplitRuns.

Section CallLayerClaims.
Context {OracleState Store : Type}.
Variable ops : RelationsOps Store.
Variable send_message : string -> OracleState -> pyres string * OracleState.
Variable client_built : OracleState -> bool.
Variable del_client : OracleState -> OracleState.
Variable split_text : string -> list string.
Variable xe : ChatEngine OracleState ExtractorPromptingI.

(** C2, amended.  When the five attempts of an oracle call made for a
    candidate all fail, on the first prompt or on the retry prompt,
    [chat_completion] raises [RetryError] and nothing catches it: the loop
    over the candidates, [build_kg] and the orchestrator all end in
    [RetryError], in the world the failed call has left.  Nothing is
    committed for that candidate, the store is the one left by the
    candidates before it, and after the retrieval and the chat calls for
    that candidate no other call is made: the remaining candidates and
    passages are not looked at. *)
Theorem exhausted_oracle_aborts_run
    (model : string) (P : BuilderPromptingI)
    (text : string) (delete_models_after_use : bool)
    (extracted : list (list pytuple))
    (before later : list (string * list pytuple))
    (passage : string) (done : list pytuple) (rel : pytuple)
    (rest added : list pytuple)
    (w0 w1 w2 w3 w4 w5 : world OracleState Store) :
  let be := GeminiEngine send_message client_built del_client model P in
  extract_loop ops xe (split_text text) [] w0 = (Ok extracted, w1) ->
  (if delete_models_after_use then call_clear xe else ret tt) w1
  = (Ok tt, w2) ->
  combine (split_text text) extracted
  = before ++ (passage, done ++ rel :: rest) :: later ->
  validate_in_order ops be before w2 = (Ok tt, w3) ->
  build_kg ops be done passage w3 = (Ok added, w4) ->
  exhausted_for ops send_message model P rel w4 w5 ->
  build_kg_loop ops be (rel :: rest) passage added w4 = (Raise RetryError, w5)
  /\ build_kg ops be (done ++ rel :: rest) passage w3 = (Raise RetryError, w5)
  /\ workflow ops split_text be xe text delete_models_after_use w0
     = (Raise RetryError, w5)
  /\ store w5 = store w4
  /\ exists chats,
       trace w5 = trace w4 ++ EvRetrieve rel :: chats
       /\ Forall (fun e => is_chat e = true) chats.
Proof.
  intros be Hx Hc Hwork Hbefore Hdone Hex.
  assert (Hd : decide_candidate ops be rel w4 = (Raise RetryError, w5)).
  { destruct Hex as [msgs os1 Hm Hf|msgs gen1 os1 err msgs2 os2 Hm Hc1 He Hm2 Hf].
    - apply (decide_first_raise ops be rel w4 (msgs := msgs)); [exact Hm|].
      apply retry_exhausted, Hf.
    - apply (decide_retry_raise ops be rel w4 (msgs := msgs) (gen1 := gen1)
               (os1 := os1) (err := err) (msgs2 := msgs2));
        try assumption.
      apply retry_exhausted, Hf. }
  assert (Hloop : build_kg_loop ops be (rel :: rest) passage added w4
                  = (Raise RetryError, w5)).
  { rewrite build_kg_loop_decide. now apply bind_raise. }
  assert (Hkg : build_kg ops be (done ++ rel :: rest) passage w3
                = (Raise RetryError, w5)).
  { unfold build_kg in *. rewrite build_kg_loop_app.
    now rewrite (bind_ok _ _ _ Hdone). }
  split; [exact Hloop|]. split; [exact Hkg|]. split; [|split].
  - assert (Hlen : length extracted = length (split_text text)).
    { rewrite extract_loop_in_order in Hx. unfold bind in Hx.
      destruct (extract_in_order ops xe (split_text text) w0)
        as [[ext|e] w1'] eqn:Ex; [|discriminate].
      injection Hx as <- _. cbn [app].
      exact (proj1 (extract_in_order_run _ _ _ _ Ex)). }
    unfold workflow.
    rewrite (bind_ok _ _ _ Hx), (bind_ok _ _ _ Hc). apply bind_raise.
    pose proof (build_loop_in_order ops be (split_text text) [] extracted w2
                  Hlen) as Hb.
    cbn [length Z.of_nat app] in Hb. rewrite Hb.
    rewrite Hwork, validate_in_order_app, (bind_ok _ _ _ Hbefore).
    cbn [validate_in_order]. now apply bind_raise.
  - destruct Hex; reflexivity.
  - destruct Hex; eexists; (split; [reflexivity|repeat constructor]).
Qed.

End CallLayerClaims.

(** ** The theorems at work on the test doubles *)

Lemma accepted_triplet_commit_rule_witness :
  exists w',
    build_kg Stub.kg_ops Stub.builder [Stub.c1] "passage"
      (Stub.start Stub.types [Ok Stub.accept_c1])
    = (Ok [Stub.c1], w')
    /\ Stub.kg_triplets (store w') = [(Stub.c1, "passage")].
Proof.
  unfold build_kg.
  assert (Hd : decide_candidate Stub.kg_ops Stub.builder Stub.c1
                 (Stub.start Stub.types [Ok Stub.accept_c1])
               = (Ok (DTuple Stub.c1),
                  snd (decide_candidate Stub.kg_ops Stub.builder Stub.c1
                         (Stub.start Stub.types [Ok Stub.accept_c1]))))
    by (vm_compute; reflexivity).
  destruct (accepted_triplet_commit_rule Stub.kg_ops Stub.builder Stub.c1
              [] "passage" [] (Stub.start Stub.types [Ok Stub.accept_c1]) Hd)
    as (_ & Hrepo).
  destruct (Hrepo EmptyString eq_refl) as (_ & Hrun).
  rewrite Hrun. vm_compute. eexists. split; reflexivity.
Defined.

(** C1, as the specification words it, fails.  The oracle accepts a triplet
    whose two names and whose relation are empty after normalisation: the
    parser returns it as a tuple of three strings, [build_kg] returns it
    and calls [add_triplets] for it, and the store holds it afterwards. *)
Lemma degenerate_triplet_is_committed :
  BuilderPrompting.extract_new_triplet "Add triplet: (:PERSON, , :PERSON)"
    Stub.types
  = Ok (DTuple [":PERSON"; ""; ":PERSON"])
  /\ exists w',
       build_kg Stub.kg_ops Stub.builder [Stub.c1] "passage"
         (Stub.start Stub.types [Ok "Add triplet: (:PERSON, , :PERSON)"])
       = (Ok [[":PERSON"; ""; ":PERSON"]], w')
       /\ Stub.kg_triplets (store w')
          = [([":PERSON"; ""; ":PERSON"], "passage")]
       /\ In (EvAdd [[":PERSON"; ""; ":PERSON"]] "passage") (trace w').
Proof.
  split; [vm_compute; reflexivity|].
  vm_compute. eexists. split; [reflexivity|]. split; [reflexivity|].
  right. right. left. reflexivity.
Qed.

Lemma retry_once_then_commit_or_discard_witness :
  exists w',
    build_kg Stub.kg_ops Stub.builder [Stub.c1] "passage"
      (Stub.start Stub.types [Ok "no marker here"; Ok Stub.accept_c1])
    = (Ok [Stub.c1], w')
    /\ Stub.kg_triplets (store w') = [(Stub.c1, "passage")].
Proof.
  unfold build_kg.
  destruct (retry_once_then_commit_or_discard Stub.kg_ops Stub.builder
              (sp := "") Stub.c1 [] "passage" []
              (Stub.start Stub.types [Ok "no marker here"; Ok Stub.accept_c1])
              (d2 := DTuple Stub.c1)
              eq_refl eq_refl eq_refl eq_refl eq_refl eq_refl) as [_ Hrun].
  rewrite Hrun. eexists. split; reflexivity.
Defined.

Lemma retry_reuses_retrieval_witness :
  exists commits,
    trace (snd (build_kg Stub.kg_ops Stub.builder [Stub.c1] "passage"
                  (Stub.start Stub.types
                     [Ok "no marker here"; Ok Stub.accept_c1])))
    = [EvRetrieve Stub.c1] ++ commits
    /\ ~ In (EvRetrieve Stub.c1) commits.
Proof.
  destruct (retry_reuses_retrieval Stub.kg_ops Stub.builder Stub.c1 "passage"
              (Stub.start Stub.types [Ok "no marker here"; Ok Stub.accept_c1])
              eq_refl eq_refl eq_refl eq_refl (surjective_pairing _))
    as (commits & Ht & Hc).
  eexists. split; [rewrite Ht; reflexivity|].
  cbn [app In]. intros [H|[H|H]]; try discriminate H.
  rewrite Forall_forall in Hc. destruct (Hc _ H) as (t & Ht'). discriminate Ht'.
Defined.

Lemma commits_are_well_typed_witness :
  exists evs,
    trace (snd (build_kg Stub.kg_ops Stub.builder [Stub.c1; Stub.c2] "passage"
                  (Stub.start Stub.types [Ok Stub.accept_c1; Ok Stub.accept_c2])))
    = evs
    /\ In (EvAdd [Stub.c2] "passage") evs
    /\ forall ts p, In (EvAdd ts p) evs -> Forall (well_typed Stub.types) ts.
Proof.
  destruct (commits_are_well_typed Stub.kg_ops Stub.builder
              [Stub.c1; Stub.c2] "passage"
              (Stub.start Stub.types [Ok Stub.accept_c1; Ok Stub.accept_c2])
              (fun _ _ _ => eq_refl) eq_refl (surjective_pairing _))
    as (_ & _ & evs & Ht & Hwt).
  exists evs. split; [exact Ht|]. split; [|exact Hwt].
  assert (H : In (EvAdd [Stub.c2] "passage")
                (trace (snd (build_kg Stub.kg_ops Stub.builder
                               [Stub.c1; Stub.c2] "passage"
                               (Stub.start Stub.types
                                  [Ok Stub.accept_c1; Ok Stub.accept_c2])))))
    by (vm_compute; tauto).
  rewrite Ht in H. exact H.
Defined.

(** Three passages with five candidates in all; the oracle answers the
    three extraction calls and accepts the candidate of the first passage
    and the first candidate of the second, then fails for good: the run ends
    in [RetryError] with two triplets in the store, after three retrievals
    and no call for the last two candidates. *)
Lemma exhausted_oracle_aborts_run_witness :
  exists w',
    workflow Stub.kg_ops Stub.split_lines Stub.gemini Stub.extractor
      ("first passage" +++ nl +++ "second passage" +++ nl +++ "third passage")
      true
      (Stub.start Stub.types
         [Ok "(alex:PERSON, works at, acme:COMPANY)";
          Ok ("(acme:COMPANY, located in, paris:LOCATION) "
              +++ "(alex:PERSON, lives in, paris:LOCATION) "
              +++ "(alex:PERSON, works at, acme:COMPANY)");
          Ok "(alex:PERSON, lives in, paris:LOCATION)";
          Ok Stub.accept_c1; Ok Stub.accept_c2])
    = (Raise RetryError, w')
    /\ Stub.kg_triplets (store w')
       = [(Stub.c1, "first passage"); (Stub.c2, "second passage")]
    /\ count is_retrieve (trace w') = 3
    /\ count is_add (trace w') = 2.
Proof.
  set (text := "first passage" +++ nl +++ "second passage" +++ nl
               +++ "third passage").
  set (w0 := Stub.start Stub.types _).
  pose (extracted := [[Stub.c1]; [Stub.c2; Stub.c3; Stub.c1]; [Stub.c3]]).
  pose (w1 := snd (extract_loop Stub.kg_ops Stub.extractor
                     (Stub.split_lines text) [] w0)).
  pose (w2 := snd (call_clear Stub.extractor w1)).
  pose (w3 := snd (validate_in_order Stub.kg_ops Stub.gemini
                     [("first passage", [Stub.c1])] w2)).
  pose (w4 := snd (build_kg Stub.kg_ops Stub.gemini [Stub.c2]
                     "second passage" w3)).
  pose (msgs := match BuilderPrompting.get_messages "" Stub.c3
                        (retrieve_similar_triplets Stub.kg_ops Stub.c3
                           (store w4))
                        (allowed_entity_types Stub.kg_ops (store w4)) with
                | Ok m => m
                | Raise _ => []
                end).
  pose (w5 := after w4 (@nil (pyres string))
                [EvRetrieve Stub.c3; EvChat "gemini" msgs 512%Z]).
  assert (Ho : oracle w4 = []) by (vm_compute; reflexivity).
  assert (Hex : exhausted_for Stub.kg_ops Stub.scripted_send "gemini"
                  (builder_prompting "") Stub.c3 w4 w5).
  { apply exhausted_first; [vm_compute; reflexivity|].
    rewrite Ho.
    repeat (eapply failed_more; [reflexivity|]). apply failed_none. }
  destruct (@exhausted_oracle_aborts_run _ _ Stub.kg_ops Stub.scripted_send
              (fun _ => true) (fun os => os) Stub.split_lines Stub.extractor
              "gemini" (builder_prompting "") text true extracted
              [("first passage", [Stub.c1])] [("third passage", [Stub.c3])]
              "second passage" [Stub.c2] Stub.c3 [Stub.c1] [Stub.c2]
              w0 w1 w2 w3 w4 w5)
    as (_ & _ & Hrun & _); try (vm_compute; reflexivity); [exact Hex|].
  fold Stub.gemini in Hrun. rewrite Hrun.
  exists w5. repeat split; vm_compute; reflexivity.
Defined.

(** C2, as the specification words it, fails.  The oracle answers the first
    candidate and then goes down for good: the run ends in [RetryError] with
    the first triplet in the store, and the third candidate is never looked
    at; the orchestrator ends the same way. *)
Lemma exhausted_oracle_run_not_continued :
  (exists w',
      build_kg Stub.kg_ops Stub.gemini [Stub.c1; Stub.c2; Stub.c3] "passage"
        (Stub.start Stub.types [Ok Stub.accept_c1])
      = (Raise RetryError, w')
      /\ Stub.kg_triplets (store w') = [(Stub.c1, "passage")]
      /\ ~ In (EvRetrieve Stub.c3) (trace w'))
  /\ ~ (exists added w',
          build_kg Stub.kg_ops Stub.gemini [Stub.c1; Stub.c2; Stub.c3] "passage"
            (Stub.start Stub.types [Ok Stub.accept_c1])
          = (Ok added, w'))
  /\ fst (workflow Stub.kg_ops Stub.split_lines Stub.gemini Stub.extractor
            ("first passage" +++ nl +++ "second passage") true
            (Stub.start Stub.types
               [Ok "(alex:PERSON, works at, acme:COMPANY)";
                Ok "(acme:COMPANY, located in, paris:LOCATION)";
                Ok Stub.accept_c1]))
     = Raise RetryError.
Proof.
  split; [|split].
  - vm_compute. eexists. split; [reflexivity|]. split; [reflexivity|].
    intros H. repeat (destruct H as [H|H]; [discriminate H|]). exact H.
  - intros (added & w' & H). vm_compute in H. discriminate H.
  - vm_compute. reflexivity.
Qed.

Lemma workflow_extracts_then_validates_witness :
  exists w',
    workflow Stub.kg_ops Stub.split_lines Stub.builder Stub.extractor
      ("first passage" +++ nl +++ "second passage") false
      (Stub.start Stub.types
         [Ok "(alex:PERSON, works at, acme:COMPANY)";
          Ok "(acme:COMPANY, located in, paris:LOCATION)";
          Ok Stub.accept_c1; Ok Stub.accept_c2])
    = (Ok tt, w')
    /\ Stub.kg_triplets (store w')
       = [(Stub.c1, "first passage"); (Stub.c2, "second passage")].
Proof.
  destruct (workflow_extracts_then_validates Stub.kg_ops
              Stub.split_lines Stub.builder Stub.extractor
              ("first passage" +++ nl +++ "second passage") false
              (Stub.start Stub.types
                 [Ok "(alex:PERSON, works at, acme:COMPANY)";
                  Ok "(acme:COMPANY, located in, paris:LOCATION)";
                  Ok Stub.accept_c1; Ok Stub.accept_c2])) as [Heq _].
  rewrite Heq. vm_compute. eexists. split; reflexivity.
Defined.

(** * Further properties of the code *)

(** ** More on the call layer *)

Section CallLayerMore.
Context {OracleState : Type}.

Lemma retry_after_failures (call : OracleState -> pyres string * OracleState)
    k n os os1 :
  failed_attempts call k os os1 -> retry (k + n) call os = retry n call os1.
Proof.
  induction 1 as [os|k os e os0 os1 Hc _ IH]; [reflexivity|].
  cbn [Nat.add retry]. now rewrite Hc.
Qed.

(** X1. The retry wrapper returns the answer of the first attempt that
    succeeds, and makes no further attempt: after [k] failed attempts,
    [k] below the ceiling, a successful attempt ends the call with its text
    and with the oracle as that attempt left it. *)
Theorem retry_returns_first_success
    (call : OracleState -> pyres string * OracleState)
    (attempts k : nat) (os os1 os2 : OracleState) (text : string) :
  k < attempts ->
  failed_attempts call k os os1 ->
  call os1 = (Ok text, os2) ->
  retry attempts call os = (Ok text, os2).
Proof.
  intros Hk Hf Hc.
  replace attempts with (k + S (attempts - S k)) by lia.
  rewrite (retry_after_failures _ Hf). cbn [retry]. now rewrite Hc.
Qed.

Variable send_message : string -> OracleState -> pyres string * OracleState.

(** X2. [GeminiEngine.chat_completion] raises nothing but [RetryError], and
    only after five attempts in a row have failed; whatever exception an
    attempt raised is not the one the caller sees. *)
Theorem gemini_raises_only_retry_error (messages : list message)
    (max_new_tokens : Z) (os os' : OracleState) (e : exn) :
  gemini_chat_completion send_message messages max_new_tokens os = (Raise e, os') ->
  e = RetryError
  /\ failed_attempts (gemini_attempt send_message messages) 5 os os'.
Proof. intros H. now apply retry_raises in H. Qed.

(** X3. Only the content of the last message reaches the remote model:
    whatever messages come before it, the call is the retried sending of
    that content.  With no message at all, the five attempts fail on the
    indexing and [RetryError] is raised without the oracle being called. *)
Theorem gemini_sends_last_message_only (messages : list message) (m : message)
    (max_new_tokens : Z) (os : OracleState) :
  gemini_chat_completion send_message (messages ++ [m]) max_new_tokens os
  = retry 5 (send_message (content m)) os
  /\ gemini_chat_completion send_message [] max_new_tokens os
     = (Raise RetryError, os).
Proof.
  split; [|reflexivity].
  unfold gemini_chat_completion.
  assert (E : forall o, gemini_attempt send_message (messages ++ [m]) o
                        = send_message (content m) o).
  { intros o. unfold gemini_attempt. now rewrite getitem_last. }
  generalize 5. intros n. revert os.
  induction n as [|n IH]; intros os; [reflexivity|].
  cbn [retry]. rewrite E.
  destruct (send_message (content m) os) as [[text|e] os1]; [reflexivity|].
  apply IH.
Qed.

End CallLayerMore.

Lemma retry_returns_first_success_witness :
  retry 5 Stub.next_response
    [Raise (OracleFailure "rate limit"); Raise (OracleFailure "timeout");
     Ok "third time lucky"; Ok "never asked"]
  = (Ok "third time lucky", [Ok "never asked"]).
Proof.
  apply (retry_returns_first_success (call := Stub.next_response)
           (attempts := 5) (k := 2)
           (os1 := [Ok "third time lucky"; Ok "never asked"])).
  - lia.
  - repeat (eapply failed_more; [reflexivity|]). apply failed_none.
  - reflexivity.
Defined.

Lemma gemini_raises_only_retry_error_witness :
  failed_attempts
    (gemini_attempt Stub.scripted_send [{| role := "user"; content := "hello" |}])
    5 [Raise (OracleFailure "quota")] [].
Proof.
  apply (gemini_raises_only_retry_error Stub.scripted_send
           [{| role := "user"; content := "hello" |}] 512%Z
           [Raise (OracleFailure "quota")] (e := RetryError)).
  reflexivity.
Defined.

(** ** More on [utils.py] and the prompts *)

(** X4. [get_triplet_string] renders the first three fields of a tuple and
    ignores any further one; on a tuple with fewer than three fields it
    raises [IndexError], and so does [BuilderPrompting.get_messages], the
    retry prompt included. *)
Theorem get_triplet_string_needs_three_fields (t : pytuple) :
  (forall a b c rest, t = a :: b :: c :: rest ->
     get_triplet_string t = Ok ("(" +++ a +++ ", " +++ b +++ ", " +++ c +++ ")"))
  /\ (length t < 3 ->
      get_triplet_string t = Raise IndexError
      /\ forall sp similar allowed gen err,
           BuilderPrompting.get_messages sp t similar allowed = Raise IndexError
           /\ BuilderPrompting.retry_messages sp t similar gen err allowed
              = Raise IndexError).
Proof.
  split.
  - intros a b c rest ->. unfold get_triplet_string.
    assert (E0 : getitem (a :: b :: c :: rest) 0%Z = Ok a)
      by exact (getitem_nonneg (a :: b :: c :: rest) 0 eq_refl).
    assert (E1 : getitem (a :: b :: c :: rest) 1%Z = Ok b)
      by exact (getitem_nonneg (a :: b :: c :: rest) 1 eq_refl).
    assert (E2 : getitem (a :: b :: c :: rest) 2%Z = Ok c)
      by exact (getitem_nonneg (a :: b :: c :: rest) 2 eq_refl).
    now rewrite E0, E1, E2.
  - intros Hlen.
    assert (E : get_triplet_string t = Raise IndexError).
    { destruct t as [|a [|b [|c rest]]]; simpl in Hlen; try lia; reflexivity. }
    split; [exact E|]. intros sp similar allowed gen err.
    unfold BuilderPrompting.retry_messages, BuilderPrompting.get_messages.
    rewrite E. split; reflexivity.
Qed.

Lemma get_triplet_string_needs_three_fields_witness :
  get_triplet_string ["alex:PERSON"; "knows"; "bo:PERSON"; "extra"]
  = Ok "(alex:PERSON, knows, bo:PERSON)"
  /\ get_triplet_string ["alex:PERSON"; "knows"] = Raise IndexError.
Proof.
  split.
  - apply (proj1 (get_triplet_string_needs_three_fields
                    ["alex:PERSON"; "knows"; "bo:PERSON"; "extra"])
             "alex:PERSON" "knows" "bo:PERSON" ["extra"] eq_refl).
  - apply (proj2 (get_triplet_string_needs_three_fields
                    ["alex:PERSON"; "knows"])).
    simpl. lia.
Defined.

(** ** More on the parsers *)

Lemma findall_lit_go_skip pat k c s :
  findall_lit_go pat (S k) (String c s) = findall_lit_go pat k s.
Proof. reflexivity. Qed.

Lemma findall_lit_go_scan pat c s :
  findall_lit_go pat 0 (String c s) =
  if String.prefix pat (String c s)
  then pat :: findall_lit_go pat (String.length pat - 1) s
  else findall_lit_go pat 0 s.
Proof. reflexivity. Qed.

Lemma findall_lit_contains pat s :
  pat <> EmptyString ->
  (0 <? length (findall_lit pat s)) = contains pat s.
Proof.
  intros Hp. unfold findall_lit. induction s as [|c s IH].
  - destruct pat; [congruence|reflexivity].
  - rewrite findall_lit_go_scan, contains_cons.
    destruct (String.prefix pat (String c s)); [reflexivity|exact IH].
Qed.

(** X5. The validation-decision parser returns a triplet exactly when the
    marker is present, the text between the first marker and the next one
    does not contain the discard word, holds exactly one parenthesized
    group, that group has three comma-separated fields, and both type tags
    are in the whitelist; the triplet is then the one built from the
    normalised fields. *)
Theorem extract_new_triplet_accepts_iff (generation : string)
    (allowed : list string) (t : pytuple) :
  BuilderPrompting.extract_new_triplet generation allowed = Ok (DTuple t)
  <-> contains BuilderPrompting.add_key generation = true
      /\ exists seg g f0 f1 f2,
           getitem (split BuilderPrompting.add_key generation) 1%Z = Ok seg
           /\ contains BuilderPrompting.discard_triplet_value seg = false
           /\ findall_parens seg = [g]
           /\ split "," g = [f0; f1; f2]
           /\ In (type1 (fields_of f0 f1 f2)) allowed
           /\ In (type2 (fields_of f0 f1 f2)) allowed
           /\ t = triplet_of (fields_of f0 f1 f2).
Proof.
  unfold BuilderPrompting.extract_new_triplet. split.
  - destruct (contains BuilderPrompting.add_key generation) eqn:Ec;
      cbn [negb]; [|discriminate].
    destruct (getitem (split BuilderPrompting.add_key generation) 1%Z)
      as [seg|e] eqn:Eg; cbn [pybind]; [|discriminate].
    rewrite findall_lit_contains by discriminate.
    destruct (contains BuilderPrompting.discard_triplet_value seg) eqn:En;
      [discriminate|].
    cbv zeta.
    destruct (findall_parens seg) as [|g [|g' gs]] eqn:Ef;
      cbn [length Nat.eqb]; try discriminate.
    rewrite getitem_first. cbn [pybind].
    destruct (split "," g) as [|f0 [|f1 [|f2 [|f3 l]]]] eqn:Es;
      cbn [length Nat.eqb negb]; try discriminate.
    rewrite standardize_three. cbn [pybind].
    destruct (str_in (type1 (fields_of f0 f1 f2)) allowed) eqn:E1;
      cbn [negb orb]; [|discriminate].
    destruct (str_in (type2 (fields_of f0 f1 f2)) allowed) eqn:E2;
      cbn [negb]; [|discriminate].
    intros [= <-]. split; [reflexivity|].
    exists seg, g, f0, f1, f2. apply str_in_In in E1, E2. repeat split; auto.
  - intros (Ec & seg & g & f0 & f1 & f2 & Eg & En & Ef & Es & H1 & H2 & ->).
    rewrite Ec, Eg. cbn [negb pybind].
    rewrite findall_lit_contains by discriminate. rewrite En. cbv zeta.
    rewrite Ef. cbn [length Nat.eqb]. rewrite getitem_first. cbn [pybind].
    rewrite Es. cbn [length Nat.eqb negb]. rewrite standardize_three.
    cbn [pybind]. apply str_in_In in H1, H2. now rewrite H1, H2.
Qed.

Lemma extract_new_triplet_accepts_iff_witness :
  BuilderPrompting.extract_new_triplet
    "I agree. Add triplet: (Alex:person, Works At, ACME:company)"
    ["PERSON"; "COMPANY"]
  = Ok (DTuple ["alex:PERSON"; "works at"; "acme:COMPANY"]).
Proof.
  apply (proj2 (extract_new_triplet_accepts_iff
                  "I agree. Add triplet: (Alex:person, Works At, ACME:company)"
                  ["PERSON"; "COMPANY"]
                  ["alex:PERSON"; "works at"; "acme:COMPANY"])).
  split; [reflexivity|].
  exists " (Alex:person, Works At, ACME:company)",
         "Alex:person, Works At, ACME:company",
         "Alex:person", " Works At", " ACME:company".
  repeat split; simpl; auto.
Defined.

(** X6. The discard word wins over everything that follows the marker: when
    the text between the first marker and the next one contains it anywhere,
    be it inside an entity name of an otherwise valid triplet, the decision
    is [None], whatever the whitelist. *)
Theorem discard_word_wins (generation seg : string) (allowed : list string) :
  contains BuilderPrompting.add_key generation = true ->
  getitem (split BuilderPrompting.add_key generation) 1%Z = Ok seg ->
  contains BuilderPrompting.discard_triplet_value seg = true ->
  BuilderPrompting.extract_new_triplet generation allowed = Ok DNone.
Proof.
  intros Ec Eg En. unfold BuilderPrompting.extract_new_triplet.
  rewrite Ec, Eg. cbn [negb pybind].
  rewrite findall_lit_contains by discriminate. now rewrite En.
Qed.

Lemma discard_word_wins_witness :
  BuilderPrompting.extract_new_triplet
    "Add triplet: (Nonesuch Records:COMPANY, signed, alex:PERSON)"
    ["PERSON"; "COMPANY"]
  = Ok DNone.
Proof.
  apply (discard_word_wins
           "Add triplet: (Nonesuch Records:COMPANY, signed, alex:PERSON)"
           (seg := " (Nonesuch Records:COMPANY, signed, alex:PERSON)")
           ["PERSON"; "COMPANY"]);
    reflexivity.
Defined.

Lemma lefts_rights_length {A B} (l : list (A + B)) :
  length (lefts l) + length (rights l) = length l.
Proof.
  induction l as [|[a|b] l IH]; cbn [lefts rights length]; lia.
Qed.

Lemma nodup_length_le {A} (dec : forall x y : A, {x = y} + {x <> y}) l :
  length (nodup dec l) <= length l.
Proof.
  induction l as [|a l IH]; [reflexivity|]. cbn [nodup].
  destruct (in_dec dec a l); cbn [length]; lia.
Qed.

(** X7. In extraction mode every parenthesized group gives one triplet or
    one warning, never both and never more: the triplets returned and the
    warnings issued are together no more than the groups; a group that does
    not have exactly three fields gives its own warning; a text without any
    group gives the empty list and no warning. *)
Theorem format_triplets_one_outcome_per_group (text : string)
    (allowed : list string) :
  exists valid warns,
    ExtractorPrompting.format_triplets_warn text allowed = Ok (valid, warns)
    /\ length valid + length warns <= length (findall_parens text)
    /\ (forall r, In r (findall_parens text) ->
          length (split "," r) <> 3 ->
          In ("Cannot get a valid triplet from " +++ r) warns)
    /\ (findall_parens text = [] -> valid = [] /\ warns = []).
Proof.
  rewrite format_triplets_warn_results. eexists _, _.
  split; [reflexivity|]. split; [|split].
  - pose proof (lefts_rights_length
                  (map (group_result allowed) (findall_parens text))) as H.
    rewrite length_map in H.
    pose proof (nodup_length_le (list_eq_dec string_dec)
                  (lefts (map (group_result allowed) (findall_parens text)))).
    unfold list_of_set. rewrite <- H. apply Nat.add_le_mono_r. exact H0.
  - intros r Hr Hlen. apply In_rights.
    replace (inr ("Cannot get a valid triplet from " +++ r))
      with (group_result allowed r); [now apply in_map|].
    unfold group_result.
    destruct (split "," r) as [|f0 [|f1 [|f2 [|f3 l]]]]; try reflexivity.
    now contradiction Hlen.
  - intros ->. split; reflexivity.
Qed.

Lemma format_triplets_one_outcome_per_group_witness :
  exists valid warns,
    ExtractorPrompting.format_triplets_warn "(alex:PERSON, graduated from)"
      ["PERSON"] = Ok (valid, warns)
    /\ length valid + length warns <= 1
    /\ In "Cannot get a valid triplet from alex:PERSON, graduated from" warns.
Proof.
  destruct (format_triplets_one_outcome_per_group
              "(alex:PERSON, graduated from)" ["PERSON"])
    as (valid & warns & Hrun & Hlen & Harity & _).
  exists valid, warns. split; [exact Hrun|]. split; [exact Hlen|].
  apply (Harity "alex:PERSON, graduated from").
  - simpl. auto.
  - discriminate.
Defined.

Lemma before_first_join c e t :
  occurs c e = false -> before_first c (e +++ String c t) = e.
Proof.
  induction e as [|a e IH]; cbn [String.append before_first occurs].
  - intros _. now rewrite Ascii.eqb_refl.
  - intros H. apply orb_false_iff in H as [Ha He]. now rewrite Ha, IH.
Qed.

Lemma occurs_before_first_other c d s :
  occurs d s = false -> occurs d (before_first c s) = false.
Proof.
  induction s as [|a s IH]; [reflexivity|]. cbn [occurs before_first].
  intros H. apply orb_false_iff in H as [Ha Hs].
  destruct (Ascii.eqb a c); [reflexivity|]. cbn [occurs]. now rewrite Ha, IH.
Qed.

Lemma entity1_no_colon f0 f1 f2 :
  occurs ":" (entity1 (fields_of f0 f1 f2)) = false.
Proof.
  cbn [fields_of entity1]. rewrite occurs_lower.
  apply occurs_strip, occurs_before_first.
Qed.

Lemma entity2_no_colon f0 f1 f2 :
  occurs ":" (entity2 (fields_of f0 f1 f2)) = false.
Proof.
  cbn [fields_of entity2]. rewrite occurs_lower.
  apply occurs_strip, occurs_before_first.
Qed.

Lemma entity_string_parts e t e' t' :
  occurs ":" e = false -> occurs ":" e' = false ->
  occurs ":" t = false -> occurs ":" t' = false ->
  e +++ ":" +++ t = e' +++ ":" +++ t' -> e = e' /\ t = t'.
Proof.
  intros He He' Ht Ht' E. split.
  - rewrite <- (before_first_join ":" e t He),
            <- (before_first_join ":" e' t' He').
    now f_equal.
  - rewrite <- (after_last_join ":" e t Ht),
            <- (after_last_join ":" e' t' Ht').
    now f_equal.
Qed.

(** X8. The strings name:TYPE of a parsed triplet are unambiguous: a parsed
    name never contains a colon and neither does a parsed type, so two
    groups give the same triplet only when their names, types and relation
    are the same. *)
Theorem parsed_triplet_determines_fields (split1 split2 : list string)
    (f g : fields) :
  standardize split1 = Ok f -> standardize split2 = Ok g ->
  length split1 = 3 -> length split2 = 3 ->
  triplet_of f = triplet_of g -> f = g.
Proof.
  intros Hf Hg L1 L2 E.
  destruct (length_three _ L1) as (a0 & a1 & a2 & ->).
  destruct (length_three _ L2) as (b0 & b1 & b2 & ->).
  rewrite standardize_three in Hf, Hg.
  injection Hf as <-. injection Hg as <-.
  unfold triplet_of in E. injection E as E1 Er E2.
  apply entity_string_parts in E1 as [N1 T1];
    try apply entity1_no_colon; try apply type1_no_colon.
  apply entity_string_parts in E2 as [N2 T2];
    try apply entity2_no_colon; try apply type2_no_colon.
  all: unfold fields_of in *.
  all: cbn [entity1 type1 relation entity2 type2] in *.
  all: try (rewrite occurs_lower; apply occurs_strip, occurs_before_first).
  all: try (rewrite occurs_upper; apply occurs_strip, occurs_after_last).
  congruence.
Qed.

Lemma parsed_triplet_determines_fields_witness :
  fields_of "Alex : person" "KNOWS" " bo:PERSON "
  = fields_of "alex:PERSON" " knows " "bo:Person".
Proof.
  apply (parsed_triplet_determines_fields
           ["Alex : person"; "KNOWS"; " bo:PERSON "]
           ["alex:PERSON"; " knows "; "bo:Person"]);
    reflexivity.
Defined.

(** ** Rendering a parsed triplet and parsing it again *)

(** *** Normalisation is idempotent *)

Lemma is_space_lower_char c : is_space (lower_char c) = is_space c.
Proof. destruct c as [[] [] [] [] [] [] [] []]; reflexivity. Qed.

Lemma is_space_upper_char c : is_space (upper_char c) = is_space c.
Proof. destruct c as [[] [] [] [] [] [] [] []]; reflexivity. Qed.

Lemma lower_char_idem c : lower_char (lower_char c) = lower_char c.
Proof. destruct c as [[] [] [] [] [] [] [] []]; reflexivity. Qed.

Lemma upper_char_idem c : upper_char (upper_char c) = upper_char c.
Proof. destruct c as [[] [] [] [] [] [] [] []]; reflexivity. Qed.

Lemma map_chars_idem f s :
  (forall c, f (f c) = f c) -> map_chars f (map_chars f s) = map_chars f s.
Proof.
  intros Hf. induction s as [|c s IH]; [reflexivity|].
  cbn [map_chars]. now rewrite Hf, IH.
Qed.

Lemma lstrip_map_chars f s :
  (forall c, is_space (f c) = is_space c) ->
  lstrip (map_chars f s) = map_chars f (lstrip s).
Proof.
  intros Hf. induction s as [|c s IH]; [reflexivity|].
  cbn [map_chars lstrip]. rewrite Hf. destruct (is_space c); [exact IH|reflexivity].
Qed.

Lemma rstrip_map_chars f s :
  (forall c, is_space (f c) = is_space c) ->
  rstrip (map_chars f s) = map_chars f (rstrip s).
Proof.
  intros Hf. induction s as [|c s IH]; [reflexivity|].
  cbn [map_chars rstrip]. rewrite IH, Hf.
  destruct (rstrip s); cbn [map_chars]; [destruct (is_space c)|]; reflexivity.
Qed.

Lemma strip_map_chars f s :
  (forall c, is_space (f c) = is_space c) ->
  strip (map_chars f s) = map_chars f (strip s).
Proof.
  intros Hf. unfold strip.
  now rewrite lstrip_map_chars, rstrip_map_chars.
Qed.

Lemma starts_clean_lstrip s : starts_clean (lstrip s) = true.
Proof.
  induction s as [|c s IH]; [reflexivity|]. cbn [lstrip].
  destruct (is_space c) eqn:E; [exact IH|]. cbn. now rewrite E.
Qed.

Lemma starts_clean_rstrip s :
  starts_clean s = true -> starts_clean (rstrip s) = true.
Proof.
  destruct s as [|c s]; [reflexivity|]. cbn [starts_clean rstrip].
  intros H. destruct (rstrip s).
  - destruct (is_space c) eqn:E; [reflexivity|]. cbn. now rewrite E.
  - exact H.
Qed.

Lemma lstrip_clean s : starts_clean s = true -> lstrip s = s.
Proof.
  destruct s as [|c s]; [reflexivity|]. cbn [starts_clean lstrip].
  destruct (is_space c); [discriminate|reflexivity].
Qed.

Lemma rstrip_idem s : rstrip (rstrip s) = rstrip s.
Proof.
  induction s as [|c s IH]; [reflexivity|]. cbn [rstrip].
  destruct (rstrip s) as [|b r] eqn:Er.
  - destruct (is_space c) eqn:Ec; [reflexivity|]. cbn [rstrip]. now rewrite Ec.
  - cbn [rstrip]. cbn [rstrip] in IH. now rewrite IH.
Qed.

Lemma strip_idem s : strip (strip s) = strip s.
Proof.
  unfold strip at 1.
  rewrite (lstrip_clean (strip s)).
  - unfold strip. apply rstrip_idem.
  - unfold strip. apply starts_clean_rstrip, starts_clean_lstrip.
Qed.

Lemma lower_strip_idem s : lower (strip (lower (strip s))) = lower (strip s).
Proof.
  unfold lower.
  rewrite (strip_map_chars lower_char (strip s) is_space_lower_char).
  rewrite strip_idem. apply map_chars_idem, lower_char_idem.
Qed.

Lemma upper_strip_idem s : upper (strip (upper (strip s))) = upper (strip s).
Proof.
  unfold upper.
  rewrite (strip_map_chars upper_char (strip s) is_space_upper_char).
  rewrite strip_idem. apply map_chars_idem, upper_char_idem.
Qed.

Lemma strip_leading_space s : strip (String " " s) = strip s.
Proof. reflexivity. Qed.

(** *** Characters that a group, a field and their normal forms do not hold *)

Lemma occurs_after_last_other c d s :
  occurs d s = false -> occurs d (after_last c s) = false.
Proof.
  induction s as [|a s IH]; [reflexivity|]. cbn [occurs after_last].
  intros H. apply orb_false_iff in H as [Ha Hs].
  destruct (occurs c s); [now apply IH|].
  destruct (Ascii.eqb a c); [exact Hs|]. cbn [occurs]. now rewrite Ha, Hs.
Qed.

Lemma occurs_map_chars f d s :
  (forall a, Ascii.eqb (f a) d = Ascii.eqb a d) ->
  occurs d (map_chars f s) = occurs d s.
Proof.
  intros Hf. induction s as [|a s IH]; [reflexivity|].
  cbn [map_chars occurs]. now rewrite Hf, IH.
Qed.

Lemma delimiter_free_lower s : delimiter_free s -> delimiter_free (lower s).
Proof.
  intros (H1 & H2 & H3). unfold lower. repeat split;
    (rewrite occurs_map_chars;
     [assumption|intros a; destruct a as [[] [] [] [] [] [] [] []]; reflexivity]).
Qed.

Lemma delimiter_free_upper s : delimiter_free s -> delimiter_free (upper s).
Proof.
  intros (H1 & H2 & H3). unfold upper. repeat split;
    (rewrite occurs_map_chars;
     [assumption|intros a; destruct a as [[] [] [] [] [] [] [] []]; reflexivity]).
Qed.

Lemma delimiter_free_strip s : delimiter_free s -> delimiter_free (strip s).
Proof. intros (H1 & H2 & H3). repeat split; now apply occurs_strip. Qed.

Lemma delimiter_free_before_first c s :
  delimiter_free s -> delimiter_free (before_first c s).
Proof.
  intros (H1 & H2 & H3). repeat split; now apply occurs_before_first_other.
Qed.

Lemma delimiter_free_after_last c s :
  delimiter_free s -> delimiter_free (after_last c s).
Proof.
  intros (H1 & H2 & H3). repeat split; now apply occurs_after_last_other.
Qed.

Lemma delimiter_free_app s t :
  delimiter_free s -> delimiter_free t -> delimiter_free (s +++ t).
Proof.
  intros (H1 & H2 & H3) (K1 & K2 & K3).
  repeat split; rewrite occurs_app; now rewrite ?H1, ?H2, ?H3.
Qed.

Lemma lazy_group_free s g :
  lazy_group s = Some g ->
  occurs ")" g = false /\ occurs (ascii_of_nat 10) g = false.
Proof.
  revert g. induction s as [|c s IH]; intros g; [discriminate|].
  cbn [lazy_group].
  destruct (Ascii.eqb c ")") eqn:E1; [intros [= <-]; now split|].
  destruct (Ascii.eqb c (ascii_of_nat 10)) eqn:E2; [discriminate|].
  destruct (lazy_group s) as [g'|]; [|discriminate].
  intros [= <-]. destruct (IH g' eq_refl) as [H1 H2].
  cbn [occurs]. now rewrite E1, E2, H1, H2.
Qed.

Lemma findall_go_groups k s g :
  In g (findall_go k s) -> exists s', lazy_group s' = Some g.
Proof.
  revert k. induction s as [|c s IH]; intros k; [intros []|].
  destruct k as [|k]; cbn [findall_go]; [|apply IH].
  destruct (Ascii.eqb c "("); [|apply IH].
  destruct (lazy_group s) as [g'|] eqn:El; [|apply IH].
  intros [<-|H]; [now exists s|]. exact (IH _ H).
Qed.

Lemma split_single_fields c s f :
  In f (split (String c EmptyString) s) ->
  occurs c f = false /\ forall d, occurs d s = false -> occurs d f = false.
Proof.
  revert f. induction s as [|a s IH]; intros f.
  - intros [<-|[]]. now split.
  - rewrite split_single_cons.
    destruct (Ascii.eqb a c) eqn:E.
    + intros [<-|H]; [now split|].
      destruct (IH _ H) as [H1 H2]. split; [assumption|].
      intros d Hd. cbn [occurs] in Hd. apply orb_false_iff in Hd as [_ Hd].
      auto.
    + pose proof (split_nonempty (String c EmptyString) s) as Hne.
      destruct (split (String c EmptyString) s) as [|h t]; [congruence|].
      intros [<-|H].
      * destruct (IH h (or_introl eq_refl)) as [H1 H2]. split.
        -- cbn [occurs]. now rewrite E, H1.
        -- intros d Hd. cbn [occurs] in *.
           apply orb_false_iff in Hd as [Ha Hd]. now rewrite Ha, H2.
      * destruct (IH f (or_intror H)) as [H1 H2]. split; [assumption|].
        intros d Hd. cbn [occurs] in Hd. apply orb_false_iff in Hd as [_ Hd].
        auto.
Qed.

(** *** Finding the one group of a rendering and its three fields *)

Lemma lazy_group_closed g rest :
  occurs ")" g = false -> occurs (ascii_of_nat 10) g = false ->
  lazy_group (g +++ String ")" rest) = Some g.
Proof.
  induction g as [|c g IH]; [reflexivity|]. cbn [occurs String.append lazy_group].
  intros H1 H2. apply orb_false_iff in H1 as [E1 H1].
  apply orb_false_iff in H2 as [E2 H2]. now rewrite E1, E2, IH.
Qed.

Lemma findall_go_short k s : String.length s <= k -> findall_go k s = [].
Proof.
  revert k. induction s as [|c s IH]; intros k H; [reflexivity|].
  cbn [String.length] in H. destruct k as [|k]; [lia|].
  cbn [findall_go]. apply IH. lia.
Qed.

Lemma length_append s t :
  String.length (s +++ t) = String.length s + String.length t.
Proof. induction s as [|c s IH]; cbn; [reflexivity|now rewrite IH]. Qed.

Lemma findall_parens_one g :
  occurs ")" g = false -> occurs (ascii_of_nat 10) g = false ->
  findall_parens (String "(" (g +++ ")")) = [g].
Proof.
  intros H1 H2. unfold findall_parens. cbn [findall_go Ascii.eqb].
  replace (Ascii.eqb "(" "(") with true by reflexivity.
  rewrite (lazy_group_closed g EmptyString H1 H2).
  rewrite findall_go_short; [reflexivity|].
  rewrite length_append. cbn. lia.
Qed.

Lemma split_single_join c a b :
  occurs c a = false ->
  split (String c EmptyString) (a +++ String c b)
  = a :: split (String c EmptyString) b.
Proof.
  induction a as [|x a IH]; cbn [String.append occurs].
  - intros _. now rewrite split_single_cons, Ascii.eqb_refl.
  - intros H. apply orb_false_iff in H as [Hx Ha].
    now rewrite split_single_cons, Hx, IH.
Qed.

Lemma append_assoc (a b c : string) : (a +++ b) +++ c = a +++ b +++ c.
Proof. induction a as [|x a IH]; cbn; [reflexivity|now rewrite IH]. Qed.

Lemma name_of_entity_string e t :
  occurs ":" e = false -> before_first ":" (e +++ ":" +++ t) = e.
Proof. intros H. exact (before_first_join ":" e t H). Qed.

Lemma type_of_entity_string e t :
  occurs ":" t = false -> after_last ":" (e +++ ":" +++ t) = t.
Proof. intros H. exact (after_last_join ":" e t H). Qed.

(** X9. Rendering a triplet that extraction returned with
    [get_triplet_string] and parsing the rendering again gives that triplet
    back, alone and without a warning: normalisation is idempotent and a
    parsed field holds no comma, closing parenthesis or newline. *)
Theorem reparse_rendered_triplet (text : string) (allowed : list string)
    (l : list pytuple) (t : pytuple) (rendered : string) :
  ExtractorPrompting.format_triplets text allowed = Ok l ->
  In t l ->
  get_triplet_string t = Ok rendered ->
  ExtractorPrompting.format_triplets_warn rendered allowed = Ok ([t], []).
Proof.
  unfold ExtractorPrompting.format_triplets.
  rewrite format_triplets_warn_results. cbn [pybind fst].
  intros [= <-] Ht Hr.
  apply nodup_In, In_lefts, in_map_iff in Ht as (r & Hres & Hin).
  apply group_result_triplet in Hres as (f0 & f1 & f2 & Es & -> & HT1 & HT2).
  (* the group and its fields are free of delimiters *)
  apply findall_go_groups in Hin as (s' & Hg).
  apply lazy_group_free in Hg as [Hr1 Hr2].
  assert (Hfree : forall f, In f [f0; f1; f2] -> delimiter_free f).
  { intros f Hf. rewrite <- Es in Hf.
    change "," with (String ","%char EmptyString) in Hf.
    destruct (split_single_fields _ _ _ Hf) as [Hc Hd].
    repeat split; auto. }
  assert (F0 : delimiter_free f0) by (apply Hfree; simpl; auto).
  assert (F1 : delimiter_free f1) by (apply Hfree; simpl; auto).
  assert (F2 : delimiter_free f2) by (apply Hfree; simpl; auto).
  set (f := fields_of f0 f1 f2) in *.
  assert (D1 : delimiter_free (entity1 f +++ ":" +++ type1 f)).
  { apply delimiter_free_app;
      [apply delimiter_free_lower, delimiter_free_strip,
         delimiter_free_before_first, F0|].
    apply (delimiter_free_app (s := ":")); [now repeat split|].
    apply delimiter_free_upper, delimiter_free_strip,
      delimiter_free_after_last, F0. }
  assert (DR : delimiter_free (relation f))
    by apply delimiter_free_lower, delimiter_free_strip, F1.
  assert (D2 : delimiter_free (entity2 f +++ ":" +++ type2 f)).
  { apply delimiter_free_app;
      [apply delimiter_free_lower, delimiter_free_strip,
         delimiter_free_before_first, F2|].
    apply (delimiter_free_app (s := ":")); [now repeat split|].
    apply delimiter_free_upper, delimiter_free_strip,
      delimiter_free_after_last, F2. }
  (* the rendering *)
  unfold get_triplet_string, triplet_of in Hr.
  destruct (getitem_three (entity1 f +++ ":" +++ type1 f) (relation f)
              (entity2 f +++ ":" +++ type2 f)) as (G0 & G1 & G2).
  rewrite G0, G1, G2 in Hr. cbn [pybind] in Hr.
  set (E1 := entity1 f +++ ":" +++ type1 f) in *.
  set (E2 := entity2 f +++ ":" +++ type2 f) in *.
  set (inner := E1 +++ ", " +++ relation f +++ ", " +++ E2).
  assert (Dinner : occurs ")" inner = false
                   /\ occurs (ascii_of_nat 10) inner = false).
  { destruct D1 as (A1 & A2 & _), DR as (B1 & B2 & _), D2 as (C1 & C2 & _).
    unfold inner. rewrite !occurs_app. cbn [occurs].
    rewrite A1, A2, B1, B2, C1, C2. now split. }
  assert (Eren : rendered = String "(" (inner +++ ")")).
  { injection Hr as <-. unfold inner. rewrite !append_assoc. reflexivity. }
  rewrite Eren, format_triplets_warn_results.
  rewrite (findall_parens_one inner (proj1 Dinner) (proj2 Dinner)).
  cbn [map]. unfold group_result at 1 2.
  assert (Esplit : split "," inner = [E1; " " +++ relation f; " " +++ E2]).
  { unfold inner. change "," with (String ","%char EmptyString).
    change (", " +++ relation f +++ ", " +++ E2)
      with (String ","%char (" " +++ relation f +++ ", " +++ E2)).
    rewrite split_single_join by apply D1.
    change (" " +++ relation f +++ ", " +++ E2)
      with ((" " +++ relation f) +++ String ","%char (" " +++ E2)).
    rewrite split_single_join
      by (cbn [String.append occurs]; apply DR).
    rewrite split_single_absent
      by (cbn [String.append occurs]; apply D2).
    reflexivity. }
  rewrite Esplit. cbv zeta.
  assert (Efields : fields_of E1 (" " +++ relation f) (" " +++ E2) = f).
  { unfold fields_of at 1. unfold E1, E2.
    rewrite <- (append_assoc " " (entity2 f) (":" +++ type2 f)).
    rewrite (name_of_entity_string (entity1 f) (type1 f))
      by apply entity1_no_colon.
    rewrite (type_of_entity_string (entity1 f) (type1 f))
      by apply type1_no_colon.
    rewrite (name_of_entity_string (" " +++ entity2 f) (type2 f))
      by (cbn [String.append occurs]; apply entity2_no_colon).
    rewrite (type_of_entity_string (" " +++ entity2 f) (type2 f))
      by apply type2_no_colon.
    change (" " +++ relation f) with (String " " (relation f)).
    change (" " +++ entity2 f) with (String " " (entity2 f)).
    rewrite !strip_leading_space.
    unfold f, fields_of. cbn [entity1 type1 relation entity2 type2].
    now rewrite !lower_strip_idem, !upper_strip_idem. }
  rewrite Efields.
  apply str_in_In in HT1, HT2. rewrite HT1, HT2. reflexivity.
Qed.

Lemma reparse_rendered_triplet_witness :
  ExtractorPrompting.format_triplets_warn
    "(alex:PERSON, graduated from, columbia university:LOCATION)"
    ["PERSON"; "LOCATION"]
  = Ok ([["alex:PERSON"; "graduated from"; "columbia university:LOCATION"]], []).
Proof.
  apply (reparse_rendered_triplet
           "Facts: ( Alex : person ,Graduated From , Columbia University:Location)"
           ["PERSON"; "LOCATION"]
           (l := [["alex:PERSON"; "graduated from";
                   "columbia university:LOCATION"]])
           ["alex:PERSON"; "graduated from"; "columbia university:LOCATION"]).
  - reflexivity.
  - simpl. auto.
  - reflexivity.
Defined.

Lemma before_first_absent c s : occurs c s = false -> before_first c s = s.
Proof.
  induction s as [|a s IH]; [reflexivity|]. cbn [occurs before_first].
  intros H. apply orb_false_iff in H as [Ha Hs]. now rewrite Ha, IH.
Qed.

(** X10. A field without a colon is not rejected: the whole field is read
    both as the name (lower-cased) and as the type tag (upper-cased). *)
Theorem field_without_colon_is_name_and_type (f0 f1 f2 : string) (f : fields) :
  standardize [f0; f1; f2] = Ok f ->
  (occurs ":" f0 = false ->
   entity1 f = lower (strip f0) /\ type1 f = upper (strip f0))
  /\ (occurs ":" f2 = false ->
      entity2 f = lower (strip f2) /\ type2 f = upper (strip f2)).
Proof.
  rewrite standardize_three. intros [= <-].
  cbn [fields_of entity1 type1 entity2 type2]. split; intros H;
    now rewrite (before_first_absent ":" _ H), (after_last_absent ":" _ H).
Qed.

Lemma field_without_colon_is_name_and_type_witness :
  ExtractorPrompting.format_triplets "(person, is not a, location)"
    ["PERSON"; "LOCATION"]
  = Ok [["person:PERSON"; "is not a"; "location:LOCATION"]]
  /\ entity1 (fields_of "person" " is not a" " location") = "person"
  /\ type1 (fields_of "person" " is not a" " location") = "PERSON".
Proof.
  split; [reflexivity|].
  apply (proj1 (field_without_colon_is_name_and_type
                  "person" " is not a" " location" eq_refl)).
  reflexivity.
Defined.

(** X11. A whitelist entry can only ever match if it is already upper-case
    and trimmed, because the parsed type tag is: with a whitelist none of
    whose entries is its own upper-cased, trimmed form, extraction returns
    no triplet and the validation-decision parser never returns one. *)
Theorem unnormalised_whitelist_never_matches (text : string)
    (allowed : list string) :
  (forall a, In a allowed -> upper (strip a) <> a) ->
  ExtractorPrompting.format_triplets text allowed = Ok []
  /\ forall t, BuilderPrompting.extract_new_triplet text allowed
               <> Ok (DTuple t).
Proof.
  intros Hbad.
  assert (Hno : forall f0 f1 f2,
             ~ In (type1 (fields_of f0 f1 f2)) allowed).
  { intros f0 f1 f2 Hin. apply (Hbad _ Hin).
    cbn [fields_of type1]. apply upper_strip_idem. }
  split.
  - unfold ExtractorPrompting.format_triplets.
    rewrite format_triplets_warn_results. cbn [pybind fst].
    destruct (list_of_set
                (lefts (map (group_result allowed) (findall_parens text))))
      as [|t l] eqn:E; [reflexivity|].
    exfalso.
    assert (Ht : In t (list_of_set
                         (lefts (map (group_result allowed)
                                   (findall_parens text)))))
      by (rewrite E; now left).
    apply nodup_In, In_lefts, in_map_iff in Ht as (r & Hr & _).
    apply group_result_triplet in Hr as (f0 & f1 & f2 & _ & _ & H1 & _).
    exact (Hno _ _ _ H1).
  - intros t Ht.
    destruct (extract_new_triplet_cases text allowed) as (d & Hd & Hcase).
    rewrite Ht in Hd. injection Hd as <-.
    destruct Hcase as (f0 & f1 & f2 & _ & H1 & _).
    exact (Hno _ _ _ H1).
Qed.

Lemma unnormalised_whitelist_never_matches_witness :
  ExtractorPrompting.format_triplets
    "(alex:Person, graduated from, columbia university:Location)"
    ["Person"; "Location"]
  = Ok [].
Proof.
  apply (unnormalised_whitelist_never_matches
           "(alex:Person, graduated from, columbia university:Location)"
           ["Person"; "Location"]).
  intros a [<-|[<-|[]]]; discriminate.
Defined.

(** ** Accounting for the calls of the validation loop *)

Ltac splits := repeat match goal with |- _ /\ _ => split end.

Lemma count_app p a b : count p (a ++ b) = count p a + count p b.
Proof. unfold count. now rewrite filter_app, length_app. Qed.

Lemma chats_only (chats : list event) :
  Forall (fun e => is_chat e = true) chats ->
  count is_chat chats = length chats
  /\ filter is_retrieve chats = [] /\ filter is_add chats = [].
Proof.
  unfold count. induction 1 as [|e l He _ (IH1 & IH2 & IH3)]; [now repeat split|].
  destruct e; try discriminate He. cbn. now rewrite IH1, IH2, IH3.
Qed.

Section Accounting.
Context {OracleState Store : Type}.
Variable ops : RelationsOps Store.
Variable eng : ChatEngine OracleState BuilderPromptingI.
#[local] Abbreviation Wa := (world OracleState Store).

Lemma decision_from_messages_calls msgs n (w : Wa) r w' :
  decision_from_messages ops eng msgs n w = (r, w') ->
  store w' = store w /\ trace w' = trace w ++ [EvChat (model_id eng) msgs n].
Proof.
  unfold decision_from_messages, call_engine, bind, log, on_oracle,
    read_store, lift, ret. cbn.
  destruct (chat_completion eng msgs n (oracle w)) as [[gen|e] os];
    [|intros [= <- <-]; now split].
  match goal with |- context [match ?x with _ => _ end] => destruct x end;
    intros [= <- <-]; now split.
Qed.

Lemma prompt_then_decide_calls (msgs : pyres (list message)) n (w : Wa) r w' :
  bind (bind (read_store (allowed_entity_types ops)) (fun _ => lift msgs))
       (fun m => decision_from_messages ops eng m n) w = (r, w') ->
  store w' = store w
  /\ exists chats, trace w' = trace w ++ chats /\ length chats <= 1
       /\ Forall (fun e => is_chat e = true) chats.
Proof.
  unfold bind at 1 2. unfold read_store, lift.
  destruct msgs as [m|e].
  - intros H. apply decision_from_messages_calls in H as [Hs Ht].
    split; [assumption|]. eexists. split; [exact Ht|].
    split; [simpl; lia|]. constructor; [reflexivity|constructor].
  - intros [= <- <-]. split; [reflexivity|]. exists [].
    rewrite app_nil_r. split; [reflexivity|]. split; [simpl; lia|constructor].
Qed.

Lemma validate_relation_calls rel similar (w : Wa) r w' :
  validate_relation ops eng rel similar w = (r, w') ->
  store w' = store w
  /\ exists chats, trace w' = trace w ++ chats /\ length chats <= 1
       /\ Forall (fun e => is_chat e = true) chats.
Proof.
  intros H.
  apply prompt_then_decide_calls
    with (msgs := bp_get_messages (prompting eng) rel similar
                    (allowed_entity_types ops (store w)))
         (n := 512%Z) (r := r).
  rewrite <- H. unfold validate_relation, bind, read_store, lift. reflexivity.
Qed.

Lemma retry_validation_calls rel err gen similar (w : Wa) r w' :
  retry_validation ops eng rel err gen similar w = (r, w') ->
  store w' = store w
  /\ exists chats, trace w' = trace w ++ chats /\ length chats <= 1
       /\ Forall (fun e => is_chat e = true) chats.
Proof.
  intros H.
  apply prompt_then_decide_calls
    with (msgs := bp_retry_messages (prompting eng) rel similar gen err
                    (allowed_entity_types ops (store w)))
         (n := 1024%Z) (r := r).
  rewrite <- H. unfold retry_validation, bind, read_store, lift. reflexivity.
Qed.

Lemma decide_candidate_calls rel (w : Wa) r w' :
  decide_candidate ops eng rel w = (r, w') ->
  store w' = store w
  /\ exists chats, trace w' = trace w ++ EvRetrieve rel :: chats
       /\ length chats <= 2 /\ Forall (fun e => is_chat e = true) chats.
Proof.
  unfold decide_candidate.
  rewrite (bind_ok _ _ _ (call_retrieve_run ops rel w)).
  unfold bind at 1.
  destruct (validate_relation ops eng rel
              (retrieve_similar_triplets ops rel (store w))
              (after w (oracle w) [EvRetrieve rel]))
    as [[[d gen]|e] w1] eqn:Ev;
    apply validate_relation_calls in Ev as (Hs1 & c1 & Ht1 & Hl1 & Hc1);
    cbn [after store trace] in Hs1, Ht1.
  - cbn [fst snd]. destruct d as [|err|t].
    + intros [= <- <-]. split; [assumption|]. exists c1.
      rewrite Ht1, <- app_assoc. split; [reflexivity|]. split; [lia|assumption].
    + unfold bind.
      destruct (retry_validation ops eng rel err gen
                  (retrieve_similar_triplets ops rel (store w)) w1)
        as [[dg'|e] w2] eqn:Er;
        apply retry_validation_calls in Er as (Hs2 & c2 & Ht2 & Hl2 & Hc2);
        intros [= <- <-]; (split; [congruence|]); exists (c1 ++ c2);
        rewrite Ht2, Ht1, <- !app_assoc;
        (split; [reflexivity|split; [rewrite length_app; lia
                                    |now apply Forall_app]]).
    + intros [= <- <-]. split; [assumption|]. exists c1.
      rewrite Ht1, <- app_assoc. split; [reflexivity|]. split; [lia|assumption].
  - intros [= <- <-]. split; [assumption|]. exists c1.
    rewrite Ht1, <- app_assoc. split; [reflexivity|]. split; [lia|assumption].
Qed.

Variable Q : decision -> Prop.
Hypothesis parsed : forall gen al d,
  bp_extract_new_triplet (prompting eng) gen al = Ok d -> Q d.

Lemma decide_candidate_parsed rel (w w' : Wa) d :
  decide_candidate ops eng rel w = (Ok d, w') -> Q d.
Proof.
  intros H.
  assert (Hk : keeps (fun _ => True) (fun _ => True)
                 (decide_candidate ops eng rel) Q).
  { apply keeps_decide_candidate; auto. intros gen st d' _. apply parsed. }
  destruct (Hk w _ _ Logic.I H) as (_ & _ & HQ). now apply HQ.
Qed.

Lemma build_kg_loop_account passage proposed added (w : Wa) r w' :
  build_kg_loop ops eng proposed passage added w = (r, w') ->
  exists evs committed,
    trace w' = trace w ++ evs
    /\ count is_retrieve evs <= length proposed
    /\ count is_chat evs <= 2 * count is_retrieve evs
    /\ length committed <= count is_retrieve evs
    /\ filter is_add evs
       = map (fun t => EvAdd [t] passage)
             (filter (fun t => 0 <? length t) committed)
    /\ length evs = count is_retrieve evs + count is_chat evs + count is_add evs
    /\ Forall (fun t => Q (DTuple t)) committed
    /\ forall res, r = Ok res ->
         res = added ++ committed /\ count is_retrieve evs = length proposed.
Proof.
  revert added w r w'. induction proposed as [|rel rest IH]; intros added w r w'.
  - intros [= <- <-]. exists [], []. rewrite !app_nil_r. cbn.
    splits; auto. intros res [= <-]. now split.
  - rewrite build_kg_loop_decide. unfold bind at 1.
    destruct (decide_candidate ops eng rel w) as [[d|e] w1] eqn:Ed.
    + pose proof (decide_candidate_parsed _ _ Ed) as HQd.
      apply decide_candidate_calls in Ed as (Hs1 & chats & Ht1 & Hl1 & Hc1).
      destruct (chats_only Hc1) as (C1 & C2 & C3).
      assert (Hskip : forall r w',
                 build_kg_loop ops eng rest passage added w1 = (r, w') ->
                 exists evs committed,
                   trace w' = trace w ++ evs
                   /\ count is_retrieve evs <= length (rel :: rest)
                   /\ count is_chat evs <= 2 * count is_retrieve evs
                   /\ length committed <= count is_retrieve evs
                   /\ filter is_add evs
                      = map (fun t => EvAdd [t] passage)
                            (filter (fun t => 0 <? length t) committed)
                   /\ length evs = count is_retrieve evs + count is_chat evs
                                   + count is_add evs
                   /\ Forall (fun t => Q (DTuple t)) committed
                   /\ forall res, r = Ok res ->
                        res = added ++ committed
                        /\ count is_retrieve evs = length (rel :: rest)).
      { intros r0 w0 Hrun.
        destruct (IH _ _ _ _ Hrun)
          as (evs & committed & Ht & B1 & B2 & B3 & B4 & B5 & B6 & B7).
        exists ((EvRetrieve rel :: chats) ++ evs), committed.
        rewrite Ht, Ht1, <- app_assoc.
        rewrite !count_app, filter_app, length_app.
        unfold count in *. cbn [filter is_retrieve is_chat is_add length].
        rewrite C2, C3. cbn [length app].
        splits; auto; try lia.
        intros res Hres. destruct (B7 res Hres). split; [assumption|lia]. }
      destruct d as [|err|t]; try exact (Hskip r w').
      unfold bind. rewrite append_and_add_run.
      intros Hrun.
      destruct (IH _ _ _ _ Hrun)
        as (evs & committed & Ht & B1 & B2 & B3 & B4 & B5 & B6 & B7).
      exists ((EvRetrieve rel :: chats)
              ++ (if 0 <? length t then [EvAdd [t] passage] else []) ++ evs),
             (t :: committed).
      rewrite !count_app, !filter_app, !length_app.
      unfold count in *. cbn [filter is_retrieve is_chat is_add length].
      rewrite C2, C3. cbn [length app map].
      destruct (0 <? length t) eqn:El;
        cbn [trace filter is_retrieve is_chat is_add length app map] in *;
        rewrite ?El; cbn [map app];
        (split; [rewrite Ht, ?Ht1, <- ?app_assoc; reflexivity|]);
        splits; auto; try lia; try (now rewrite B4).
      all: intros res Hres; destruct (B7 res Hres) as [-> Hn];
        (split; [now rewrite <- app_assoc|lia]).
    + apply decide_candidate_calls in Ed as (Hs1 & chats & Ht1 & Hl1 & Hc1).
      destruct (chats_only Hc1) as (C1 & C2 & C3).
      intros [= <- <-]. exists (EvRetrieve rel :: chats), [].
      unfold count in *. cbn [filter is_retrieve is_chat is_add length].
      rewrite C2, C3. cbn [length map].
      splits; auto; try lia. discriminate.
Qed.

End Accounting.

Section BuilderMore.
Context {OracleState Store : Type}.
Variable ops : RelationsOps Store.
#[local] Abbreviation Wm := (world OracleState Store).

(** X12. A first decision that is a triplet or [None] settles the candidate
    without a retry: the triplet is committed with the passage right after
    the one chat call, [None] drops the candidate, and the loop goes on; the
    next candidate's retrieval then sees the store with that commit. *)
Theorem first_decision_settles
    (eng : ChatEngine OracleState BuilderPromptingI) (sp : string)
    (rel : pytuple) (rest : list pytuple) (passage : string)
    (added : list pytuple) (w : Wm)
    (msgs : list message) (gen : string) (os1 : OracleState) (d : decision) :
  let al := allowed_entity_types ops (store w) in
  let similar := retrieve_similar_triplets ops rel (store w) in
  let asked := [EvRetrieve rel; EvChat (model_id eng) msgs 512%Z] in
  prompting eng = builder_prompting sp ->
  BuilderPrompting.get_messages sp rel similar al = Ok msgs ->
  chat_completion eng msgs 512%Z (oracle w) = (Ok gen, os1) ->
  BuilderPrompting.extract_new_triplet gen al = Ok d ->
  (forall err, d <> DStr err) ->
  build_kg_loop ops eng (rel :: rest) passage added w =
  match d with
  | DTuple t =>
      build_kg_loop ops eng rest passage (added ++ [t])
        {| oracle := os1;
           store := add_triplets ops [t] passage (store w);
           trace := trace w ++ asked ++ [EvAdd [t] passage] |}
  | DNone | DStr _ =>
      build_kg_loop ops eng rest passage added (after w os1 asked)
  end.
Proof.
  intros al similar asked Hp Hm Hc He Hd.
  assert (Hdec : decide_candidate ops eng rel w = (Ok d, after w os1 asked)).
  { rewrite (decide_first_ok ops eng rel w (msgs := msgs) (gen1 := gen)
               (os1 := os1) (d := d));
      rewrite ?Hp; cbn [builder_prompting bp_get_messages
                          bp_extract_new_triplet]; try assumption.
    destruct d as [|err|t]; try reflexivity. now contradiction (Hd err). }
  rewrite build_kg_loop_decide, (bind_ok _ _ _ Hdec).
  destruct d as [|err|t]; try reflexivity.
  erewrite bind_ok by apply append_and_add_run.
  destruct (extract_new_triplet_cases gen al) as (d' & Hd' & Hcase).
  rewrite He in Hd'. injection Hd' as <-.
  destruct Hcase as (f0 & f1 & f2 & -> & _).
  cbn [triplet_of length Nat.ltb Nat.leb after oracle store trace].
  now rewrite <- app_assoc.
Qed.

(** X13. The validation loop makes at most one similarity search, two chat
    calls and one commit per candidate, and nothing else; when it returns,
    it has searched once for every candidate and returns at most one
    triplet per candidate. *)
Theorem build_kg_call_budget
    (eng : ChatEngine OracleState BuilderPromptingI)
    (proposed : list pytuple) (passage : string) (w : Wm)
    (r : pyres (list pytuple)) (w' : Wm) :
  build_kg ops eng proposed passage w = (r, w') ->
  exists evs,
    trace w' = trace w ++ evs
    /\ count is_retrieve evs <= length proposed
    /\ count is_chat evs <= 2 * count is_retrieve evs
    /\ count is_add evs <= count is_retrieve evs
    /\ length evs = count is_retrieve evs + count is_chat evs + count is_add evs
    /\ forall res, r = Ok res ->
         count is_retrieve evs = length proposed
         /\ length res <= length proposed.
Proof.
  intros Hrun.
  destruct (build_kg_loop_account ops eng (fun _ => True)
              (fun _ _ _ _ => Logic.I) passage proposed [] w Hrun)
    as (evs & committed & Ht & B1 & B2 & B3 & B4 & B5 & _ & B7).
  exists evs. splits; auto.
  - unfold count at 1. rewrite B4, length_map.
    etransitivity; [apply filter_length_le|exact B3].
  - intros res Hres. destruct (B7 res Hres) as [-> Hn]. cbn [app].
    split; [assumption|]. rewrite <- Hn. exact B3.
Qed.

(** X14. With the validation-decision parser of [BuilderPrompting], what
    [build_kg] returns is what it has committed: the calls to
    [add_triplets] are, in order, one per returned triplet, each with that
    triplet alone and with the passage, and every returned triplet has three
    fields. *)
Theorem build_kg_returns_its_commits
    (eng : ChatEngine OracleState BuilderPromptingI)
    (proposed : list pytuple) (passage : string) (w : Wm)
    (res : list pytuple) (w' : Wm) :
  bp_extract_new_triplet (prompting eng) = BuilderPrompting.extract_new_triplet ->
  build_kg ops eng proposed passage w = (Ok res, w') ->
  exists evs,
    trace w' = trace w ++ evs
    /\ filter is_add evs = map (fun t => EvAdd [t] passage) res
    /\ Forall (fun t => length t = 3) res.
Proof.
  intros Hp Hrun.
  assert (Hparse : forall gen al d,
             bp_extract_new_triplet (prompting eng) gen al = Ok d ->
             match d with
             | DTuple t => length t = 3
             | _ => True
             end).
  { intros gen al d Hd. rewrite Hp in Hd.
    destruct (extract_new_triplet_cases gen al) as (d' & Hd' & Hcase).
    rewrite Hd in Hd'. injection Hd' as <-.
    destruct d as [| |t]; try exact Logic.I.
    now destruct Hcase as (f0 & f1 & f2 & -> & _). }
  destruct (build_kg_loop_account ops eng _ Hparse passage proposed [] w Hrun)
    as (evs & committed & Ht & _ & _ & _ & B4 & _ & B6 & B7).
  destruct (B7 res eq_refl) as [-> _]. cbn [app] in *.
  exists evs. splits; auto.
  rewrite B4. f_equal.
  clear -B6. induction B6 as [|t l Ht _ IH]; [reflexivity|].
  cbn [filter]. rewrite Ht. cbn [Nat.ltb Nat.leb]. f_equal. exact IH.
Qed.

End BuilderMore.

Lemma first_decision_settles_witness :
  exists w',
    build_kg Stub.kg_ops Stub.builder [Stub.c3; Stub.c1] "passage"
      (Stub.start Stub.types [Ok "Add triplet: None"; Ok Stub.accept_c1])
    = (Ok [Stub.c1], w')
    /\ Stub.kg_triplets (store w') = [(Stub.c1, "passage")].
Proof.
  unfold build_kg.
  rewrite (first_decision_settles Stub.kg_ops Stub.builder
             (sp := "") Stub.c3 [Stub.c1] "passage" []
             (Stub.start Stub.types [Ok "Add triplet: None"; Ok Stub.accept_c1])
             (d := DNone) eq_refl eq_refl eq_refl eq_refl);
    [|discriminate].
  vm_compute. eexists. split; reflexivity.
Defined.

Lemma build_kg_call_budget_witness :
  exists evs,
    trace (snd (build_kg Stub.kg_ops Stub.builder [Stub.c1; Stub.c2] "passage"
                  (Stub.start Stub.types
                     [Ok "no marker"; Ok Stub.accept_c1; Ok "Add triplet: None"])))
    = evs
    /\ count is_retrieve evs = 2 /\ count is_chat evs <= 4
    /\ count is_add evs <= 2.
Proof.
  destruct (build_kg_call_budget Stub.kg_ops Stub.builder
              [Stub.c1; Stub.c2] "passage"
              (Stub.start Stub.types
                 [Ok "no marker"; Ok Stub.accept_c1; Ok "Add triplet: None"])
              (surjective_pairing _))
    as (evs & Ht & B1 & B2 & B3 & _ & B5).
  exists evs. split; [exact Ht|].
  destruct (B5 [Stub.c1] eq_refl) as [Hn _]. simpl in Hn.
  split; [exact Hn|]. split; lia.
Defined.

Lemma build_kg_returns_its_commits_witness :
  exists evs,
    trace (snd (build_kg Stub.kg_ops Stub.builder [Stub.c1; Stub.c2] "passage"
                  (Stub.start Stub.types [Ok Stub.accept_c1; Ok Stub.accept_c2])))
    = evs
    /\ filter is_add evs
       = [EvAdd [Stub.c1] "passage"; EvAdd [Stub.c2] "passage"].
Proof.
  destruct (build_kg_returns_its_commits Stub.kg_ops Stub.builder
              [Stub.c1; Stub.c2] "passage"
              (Stub.start Stub.types [Ok Stub.accept_c1; Ok Stub.accept_c2])
              (res := [Stub.c1; Stub.c2])
              (w' := snd (build_kg Stub.kg_ops Stub.builder [Stub.c1; Stub.c2]
                            "passage"
                            (Stub.start Stub.types
                               [Ok Stub.accept_c1; Ok Stub.accept_c2])))
              eq_refl eq_refl)
    as (evs & Ht & Hadd & _).
  exists evs. split; [exact Ht|exact Hadd].
Defined.

(** ** More on the orchestrator *)

Section WorkflowMore.
Context {OracleState Store : Type}.
Variable ops : RelationsOps Store.
Variable split_text : string -> list string.
Variable be : ChatEngine OracleState BuilderPromptingI.
Variable xe : ChatEngine OracleState ExtractorPromptingI.
#[local] Abbreviation Wx := (world OracleState Store).

Lemma extract_from_passage_calls c al (w w1 : Wx) r :
  extract_from_passage xe c al w = (r, w1) ->
  store w1 = store w /\ trace w1 = trace w ++ [extractor_call xe al c].
Proof.
  unfold extract_from_passage, call_engine, bind, log, on_oracle, lift.
  cbn [oracle store trace].
  destruct (chat_completion xe (ep_get_messages (prompting xe) c al) 4096%Z
              (oracle w)) as [[decoded|e] os];
    intros [= _ <-]; split; reflexivity.
Qed.

Lemma extract_in_order_calls chunks (w w1 : Wx) r :
  extract_in_order ops xe chunks w = (r, w1) ->
  store w1 = store w
  /\ exists k, k <= length chunks
       /\ trace w1 = trace w
            ++ map (extractor_call xe (allowed_entity_types ops (store w)))
                   (firstn k chunks)
       /\ (forall e, r = Raise e -> 0 < k).
Proof.
  revert w w1 r. induction chunks as [|c chunks IH]; intros w w1 r.
  - intros [= <- <-]. split; [reflexivity|]. exists 0. cbn.
    rewrite app_nil_r. split; [lia|]. split; [reflexivity|discriminate].
  - cbn [extract_in_order]. unfold bind at 1 2. unfold read_store at 1.
    destruct (extract_from_passage xe c (allowed_entity_types ops (store w)) w)
      as [[ts|e] w0] eqn:Ex;
      destruct (extract_from_passage_calls _ _ _ Ex) as [Hs0 Ht0].
    + unfold bind.
      destruct (extract_in_order ops xe chunks w0) as [[ext|e] w2] eqn:Er;
        destruct (IH _ _ _ Er) as (Hs & k & Hk & Ht & Hpos);
        intros [= <- <-]; (split; [congruence|]); exists (S k);
        cbn [length firstn map]; (split; [lia|]);
        (split; [rewrite Ht, Ht0, Hs0, <- app_assoc; reflexivity
                |intros; lia]).
    + intros [= <- <-]. split; [assumption|]. exists 1.
      cbn [length firstn map]. split; [lia|].
      split; [exact Ht0|intros; lia].
Qed.

(** X15. When extraction fails on a passage, the orchestrator stops there:
    the exception leaves [__call__], no validation has started, the models
    are not cleared, the store is untouched, and the calls made are the
    extractor calls for a non-empty initial run of the passages, in order. *)
Theorem extraction_failure_aborts_workflow (text : string)
    (delete_models_after_use : bool) (w w1 : Wx) (e : exn) :
  let chunks := split_text text in
  extract_loop ops xe chunks [] w = (Raise e, w1) ->
  workflow ops split_text be xe text delete_models_after_use w = (Raise e, w1)
  /\ store w1 = store w
  /\ exists k, 0 < k <= length chunks
       /\ trace w1 = trace w
            ++ map (extractor_call xe (allowed_entity_types ops (store w)))
                   (firstn k chunks).
Proof.
  intros chunks Hx. split.
  - unfold workflow. fold chunks. now apply bind_raise.
  - rewrite extract_loop_in_order in Hx. unfold bind in Hx.
    destruct (extract_in_order ops xe chunks w) as [[ext|e'] w2] eqn:Er;
      [discriminate|].
    injection Hx as -> ->.
    destruct (extract_in_order_calls _ _ Er) as (Hs & k & Hk & Ht & Hpos).
    split; [assumption|]. exists k. split; [|assumption].
    split; [now apply (Hpos e)|assumption].
Qed.

Section WorkflowInvariant.
Variable I : Store -> Prop.
Variable good : event -> Prop.
Hypothesis good_chat : forall m msgs n, good (EvChat m msgs n).
Hypothesis good_clear : forall m, good (EvClear m).

Lemma keeps_extract_loop cs acc :
  keeps I good (extract_loop ops xe cs acc) (fun _ => True).
Proof.
  revert acc. induction cs as [|c cs IH]; intros acc.
  - now apply keeps_ret.
  - cbn [extract_loop].
    apply keeps_bind with (P := fun _ => True); [now apply keeps_read_store|].
    intros al _. apply keeps_bind with (P := fun _ => True).
    + unfold extract_from_passage.
      apply keeps_bind with (P := fun _ => True).
      * now apply keeps_call_engine.
      * intros decoded _. now apply keeps_lift.
    + intros ts _. apply IH.
Qed.

Lemma keeps_call_clear {P} (eng : ChatEngine OracleState P) (b : bool) :
  keeps (Store := Store) I good
    (if b then call_clear eng else ret tt) (fun _ => True).
Proof.
  destruct b; [|now apply keeps_ret]. unfold call_clear.
  apply keeps_bind with (P := fun _ => True); [now apply keeps_log|].
  intros _ _. apply keeps_on_oracle.
Qed.

Variable chunks : list string.
Hypothesis build_ok : forall candidates c,
  In c chunks ->
  keeps I good (build_kg ops be candidates c) (fun _ => True).

Lemma keeps_build_loop cs i extracted :
  incl cs chunks ->
  keeps I good (build_loop ops be i cs extracted) (fun _ => True).
Proof.
  revert i. induction cs as [|c cs IH]; intros i Hincl.
  - now apply keeps_ret.
  - cbn [build_loop].
    apply keeps_bind with (P := fun _ => True); [now apply keeps_lift|].
    intros candidates _.
    apply keeps_bind with (P := fun _ => True).
    + apply build_ok. apply Hincl. now left.
    + intros _ _. apply IH. intros x Hx. apply Hincl. now right.
Qed.

Lemma keeps_workflow text delete_models_after_use :
  split_text text = chunks ->
  keeps I good (workflow ops split_text be xe text delete_models_after_use)
    (fun _ => True).
Proof.
  intros Hc. unfold workflow. rewrite Hc.
  apply keeps_bind with (P := fun _ => True); [apply keeps_extract_loop|].
  intros extracted _.
  apply keeps_bind with (P := fun _ => True); [apply keeps_call_clear|].
  intros _ _.
  apply keeps_bind with (P := fun _ => True);
    [apply keeps_build_loop, incl_refl|].
  intros _ _. apply keeps_call_clear.
Qed.

End WorkflowInvariant.

Lemma keeps_build_kg_passage chunks candidates c :
  In c chunks ->
  keeps (fun _ => True) (commit_from chunks)
    (build_kg ops be candidates c) (fun _ => True).
Proof.
  intros Hc w r w' _ Hrun. split; [exact Logic.I|]. split; [|auto].
  destruct (build_kg_loop_account ops be (fun _ => True)
              (fun _ _ _ _ => Logic.I) c candidates [] w Hrun)
    as (evs & committed & Ht & _ & _ & _ & B4 & _).
  exists evs. split; [assumption|]. apply Forall_forall. intros ev Hev.
  destruct ev as [rel|m msgs n|ts p|m]; try exact Logic.I.
  assert (Hin : In (EvAdd ts p) (filter is_add evs))
    by (apply filter_In; now split).
  rewrite B4 in Hin. apply in_map_iff in Hin as (t & [= <- <-] & _).
  split; [assumption|now exists t].
Qed.

(** X16. Every commit made during a run of the orchestrator, completed or
    not, hands [add_triplets] one triplet together with a passage that the
    splitter returned for the document. *)
Theorem workflow_commits_carry_a_passage (text : string)
    (delete_models_after_use : bool) (w : Wx) (r : pyres unit) (w' : Wx) :
  workflow ops split_text be xe text delete_models_after_use w = (r, w') ->
  exists evs,
    trace w' = trace w ++ evs
    /\ forall ts p, In (EvAdd ts p) evs ->
         In p (split_text text) /\ exists t, ts = [t].
Proof.
  intros Hrun.
  assert (Hk : keeps (fun _ => True) (commit_from (split_text text))
                 (workflow ops split_text be xe text delete_models_after_use)
                 (fun _ => True)).
  { apply keeps_workflow with (chunks := split_text text);
      try (intros; exact Logic.I); [|reflexivity].
    intros candidates c Hc. now apply keeps_build_kg_passage. }
  destruct (Hk w r w' Logic.I Hrun) as (_ & (evs & Ht & Hg) & _).
  exists evs. split; [assumption|]. intros ts p Hin.
  rewrite Forall_forall in Hg. exact (Hg _ Hin).
Qed.

(** X17. With the validation-decision parser of [BuilderPrompting] and a
    store whose whitelist [add_triplets] leaves alone, a run of the
    orchestrator, completed or not, commits only triplets whose subject and
    object types are in the whitelist the store had at the start, and ends
    with that whitelist. *)
Theorem workflow_commits_are_well_typed (text : string)
    (delete_models_after_use : bool) (w : Wx) (r : pyres unit) (w' : Wx) :
  (forall ts p st, allowed_entity_types ops (add_triplets ops ts p st)
                   = allowed_entity_types ops st) ->
  bp_extract_new_triplet (prompting be) = BuilderPrompting.extract_new_triplet ->
  workflow ops split_text be xe text delete_models_after_use w = (r, w') ->
  allowed_entity_types ops (store w') = allowed_entity_types ops (store w)
  /\ exists evs,
       trace w' = trace w ++ evs
       /\ forall ts p, In (EvAdd ts p) evs ->
            Forall (well_typed (allowed_entity_types ops (store w))) ts.
Proof.
  intros Hadd Hp Hrun.
  set (al := allowed_entity_types ops (store w)).
  assert (Hk : keeps (fun st => allowed_entity_types ops st = al)
                 (typed_commit al)
                 (workflow ops split_text be xe text delete_models_after_use)
                 (fun _ => True)).
  { apply keeps_workflow with (chunks := split_text text);
      try (intros; exact Logic.I); [|reflexivity].
    intros candidates c _. unfold build_kg.
    apply keeps_build_kg_loop
      with (Q := fun d => match d with
                          | DTuple t => well_typed al t
                          | _ => True
                          end).
    - intros; exact Logic.I.
    - intros; exact Logic.I.
    - intros gen st d Hst Hd. rewrite Hp, Hst in Hd.
      destruct d as [| |t]; try exact Logic.I.
      destruct (extract_new_triplet_cases gen al) as (d' & Hd' & Hcase).
      rewrite Hd in Hd'. injection Hd' as <-.
      destruct Hcase as (f0 & f1 & f2 & -> & H1 & H2).
      destruct (triplet_of_types f0 f1 f2) as (s & rel & o & E & Es & Eo).
      exists s, rel, o. rewrite Es, Eo. auto.
    - intros t p st _ Hst. now rewrite Hadd.
    - intros t p Ht. cbn. now repeat constructor. }
  destruct (Hk w r w' eq_refl Hrun) as (Hal & (evs & Ht & Hg) & _).
  split; [exact Hal|]. exists evs. split; [assumption|].
  intros ts p Hin. rewrite Forall_forall in Hg. exact (Hg _ Hin).
Qed.

End WorkflowMore.

Lemma extraction_failure_aborts_workflow_witness :
  exists w1,
    workflow Stub.kg_ops Stub.split_lines Stub.builder Stub.extractor
      ("first passage" +++ nl +++ "second passage") true
      (Stub.start Stub.types [Ok "(alex:PERSON, works at, acme:COMPANY)"])
    = (Raise (OracleFailure "no response left"), w1)
    /\ store w1 = Stub.empty_kg Stub.types.
Proof.
  destruct (extraction_failure_aborts_workflow Stub.kg_ops Stub.split_lines
              Stub.builder Stub.extractor
              ("first passage" +++ nl +++ "second passage") true
              (Stub.start Stub.types
                 [Ok "(alex:PERSON, works at, acme:COMPANY)"])
              (w1 := snd (extract_loop Stub.kg_ops Stub.extractor
                            (Stub.split_lines
                               ("first passage" +++ nl +++ "second passage"))
                            []
                            (Stub.start Stub.types
                               [Ok "(alex:PERSON, works at, acme:COMPANY)"])))
              (e := OracleFailure "no response left") eq_refl)
    as (Hrun & Hst & _).
  eexists. split; [exact Hrun|exact Hst].
Defined.

Lemma workflow_commits_carry_a_passage_witness :
  exists evs,
    trace (snd (workflow Stub.kg_ops Stub.split_lines Stub.builder
                  Stub.extractor
                  ("first passage" +++ nl +++ "second passage") false
                  (Stub.start Stub.types
                     [Ok "(alex:PERSON, works at, acme:COMPANY)";
                      Ok "(acme:COMPANY, located in, paris:LOCATION)";
                      Ok Stub.accept_c1; Ok Stub.accept_c2])))
    = evs
    /\ forall ts p, In (EvAdd ts p) evs ->
         In p ["first passage"; "second passage"].
Proof.
  destruct (workflow_commits_carry_a_passage Stub.kg_ops Stub.split_lines
              Stub.builder Stub.extractor
              ("first passage" +++ nl +++ "second passage") false
              (Stub.start Stub.types
                 [Ok "(alex:PERSON, works at, acme:COMPANY)";
                  Ok "(acme:COMPANY, located in, paris:LOCATION)";
                  Ok Stub.accept_c1; Ok Stub.accept_c2])
              (surjective_pairing _))
    as (evs & Ht & Hall).
  exists evs. split; [exact Ht|].
  intros ts p Hin. exact (proj1 (Hall ts p Hin)).
Defined.

Lemma workflow_commits_are_well_typed_witness :
  exists evs,
    trace (snd (workflow Stub.kg_ops Stub.split_lines Stub.builder
                  Stub.extractor
                  ("first passage" +++ nl +++ "second passage") false
                  (Stub.start Stub.types
                     [Ok "(alex:PERSON, works at, acme:COMPANY)";
                      Ok "(acme:COMPANY, located in, paris:LOCATION)";
                      Ok Stub.accept_c1; Ok Stub.accept_c2])))
    = evs
    /\ forall ts p, In (EvAdd ts p) evs -> Forall (well_typed Stub.types) ts.
Proof.
  destruct (workflow_commits_are_well_typed Stub.kg_ops Stub.split_lines
              Stub.builder Stub.extractor
              ("first passage" +++ nl +++ "second passage") false
              (Stub.start Stub.types
                 [Ok "(alex:PERSON, works at, acme:COMPANY)";
                  Ok "(acme:COMPANY, located in, paris:LOCATION)";
                  Ok Stub.accept_c1; Ok Stub.accept_c2])
              (fun _ _ _ => eq_refl) eq_refl (surjective_pairing _))
    as (_ & evs & Ht & Hall).
  exists evs. split; [exact Ht|exact Hall].
Defined.

(** ** A run with engines that answer *)

Lemma format_triplets_three_fields text allowed :
  exists l, ExtractorPrompting.format_triplets text allowed = Ok l
            /\ Forall (fun t => length t = 3) l.
Proof.
  unfold ExtractorPrompting.format_triplets.
  rewrite format_triplets_warn_results. cbn [pybind fst].
  eexists. split; [reflexivity|].
  apply Forall_forall. intros t Ht.
  apply nodup_In, In_lefts, in_map_iff in Ht as (r & Hr & _).
  apply group_result_triplet in Hr as (f0 & f1 & f2 & _ & -> & _).
  reflexivity.
Qed.

Lemma get_messages_three_fields sp a b c similar al :
  exists msgs, BuilderPrompting.get_messages sp [a; b; c] similar al = Ok msgs.
Proof. eexists. reflexivity. Qed.

Section Completion.
Context {OracleState Store : Type}.
Variable ops : RelationsOps Store.
Variable split_text : string -> list string.
Variable be : ChatEngine OracleState BuilderPromptingI.
Variable xe : ChatEngine OracleState ExtractorPromptingI.
Variables sp_extractor sp_builder : string.
Hypothesis xe_answers : answers xe.
Hypothesis be_answers : answers be.
Hypothesis xe_prompting : prompting xe = extractor_prompting sp_extractor.
Hypothesis be_prompting : prompting be = builder_prompting sp_builder.
#[local] Abbreviation Wc := (world OracleState Store).

Lemma decide_candidate_completes rel (w : Wc) :
  length rel = 3 ->
  exists d w', decide_candidate ops be rel w = (Ok d, w')
    /\ match d with DTuple t => length t = 3 | _ => True end.
Proof.
  intros Hlen. destruct (length_three _ Hlen) as (a & b & c & ->).
  set (al := allowed_entity_types ops (store w)).
  set (similar := retrieve_similar_triplets ops [a; b; c] (store w)).
  destruct (get_messages_three_fields sp_builder a b c similar al)
    as (msgs & Hm).
  destruct (proj1 be_answers msgs 512%Z (oracle w)) as (gen1 & os1 & Hc1).
  destruct (extract_new_triplet_cases gen1 al) as (d & Hd & Hcase).
  assert (Hm' : bp_get_messages (prompting be) [a; b; c] similar al = Ok msgs)
    by (now rewrite be_prompting).
  assert (Hd' : bp_extract_new_triplet (prompting be) gen1 al = Ok d)
    by (now rewrite be_prompting).
  destruct d as [|err|t].
  - exists DNone. eexists. split; [|exact Logic.I].
    now rewrite (decide_first_ok ops be [a; b; c] w Hm' Hc1 Hd').
  - set (msgs2 := msgs ++ [BuilderPrompting.retry_message gen1 err]).
    destruct (proj1 be_answers msgs2 1024%Z os1) as (gen2 & os2 & Hc2).
    destruct (extract_new_triplet_cases gen2 al) as (d2 & Hd2 & Hcase2).
    assert (Hm2 : bp_retry_messages (prompting be) [a; b; c] similar gen1 err al
                  = Ok msgs2).
    { rewrite be_prompting. cbn [builder_prompting bp_retry_messages].
      now apply retry_messages_append. }
    assert (Hd2' : bp_extract_new_triplet (prompting be) gen2 al = Ok d2)
      by (now rewrite be_prompting).
    exists d2. eexists. split.
    + exact (decide_retry_ok ops be [a; b; c] w Hm' Hc1 Hd' Hm2 Hc2 Hd2').
    + destruct d2 as [| |t]; try exact Logic.I.
      now destruct Hcase2 as (f0 & f1 & f2 & -> & _).
  - exists (DTuple t). eexists. split.
    + now rewrite (decide_first_ok ops be [a; b; c] w Hm' Hc1 Hd').
    + now destruct Hcase as (f0 & f1 & f2 & -> & _).
Qed.

Lemma build_kg_loop_completes proposed passage added (w : Wc) :
  Forall (fun t => length t = 3) proposed ->
  exists res w', build_kg_loop ops be proposed passage added w = (Ok res, w').
Proof.
  intros Hall. revert added w.
  induction Hall as [|rel rest Hrel _ IH]; intros added w.
  - eexists _, _. reflexivity.
  - destruct (decide_candidate_completes rel w Hrel) as (d & w1 & Hd & _).
    rewrite build_kg_loop_decide, (bind_ok _ _ _ Hd).
    destruct d as [|err|t]; try apply IH.
    erewrite bind_ok by apply append_and_add_run. apply IH.
Qed.

Lemma extract_from_passage_completes c al (w : Wc) :
  exists ts w', extract_from_passage xe c al w = (Ok ts, w')
                /\ Forall (fun t => length t = 3) ts.
Proof.
  unfold extract_from_passage.
  destruct (proj1 xe_answers (ep_get_messages (prompting xe) c al) 4096%Z
              (oracle w)) as (decoded & os & Hc).
  rewrite (bind_ok _ _ _ (call_engine_run xe _ _ w Hc)).
  rewrite xe_prompting. cbn [extractor_prompting ep_format_triplets].
  destruct (format_triplets_three_fields decoded al) as (l & Hl & Hall).
  unfold lift. rewrite Hl. eexists _, _. split; [reflexivity|assumption].
Qed.

Lemma extract_loop_completes chunks acc (w : Wc) :
  exists ext w',
    extract_loop ops xe chunks acc w = (Ok (acc ++ ext), w')
    /\ length ext = length chunks
    /\ Forall (Forall (fun t => length t = 3)) ext.
Proof.
  revert acc w. induction chunks as [|c chunks IH]; intros acc w.
  - exists [], w. rewrite app_nil_r. now repeat split.
  - cbn [extract_loop]. unfold bind at 1. unfold read_store at 1.
    destruct (extract_from_passage_completes c
                (allowed_entity_types ops (store w)) w)
      as (ts & w1 & Hx & Hts).
    rewrite (bind_ok _ _ _ Hx).
    destruct (IH (acc ++ [ts]) w1) as (ext & w2 & Hrun & Hlen & Hall).
    exists (ts :: ext), w2. rewrite Hrun, <- app_assoc.
    split; [reflexivity|]. split; [simpl; lia|now constructor].
Qed.

Lemma build_loop_completes chunks pre post (w : Wc) :
  length post = length chunks ->
  Forall (Forall (fun t => length t = 3)) post ->
  exists w', build_loop ops be (Z.of_nat (length pre)) chunks (pre ++ post) w
             = (Ok tt, w').
Proof.
  revert pre post w. induction chunks as [|c chunks IH]; intros pre post w Hlen Hall.
  - eexists. reflexivity.
  - destruct post as [|p post]; [discriminate|]. injection Hlen as Hlen.
    inversion Hall as [|? ? Hp Hpost]; subst.
    cbn [build_loop].
    assert (Hget : getitem (pre ++ p :: post) (Z.of_nat (length pre)) = Ok p).
    { apply getitem_nonneg. now rewrite nth_error_app2, Nat.sub_diag by lia. }
    assert (Hl : lift (getitem (pre ++ p :: post) (Z.of_nat (length pre))) w
                 = (Ok p, w)) by (unfold lift; now rewrite Hget).
    rewrite (bind_ok _ _ _ Hl).
    destruct (build_kg_loop_completes c [] w Hp) as (res & w1 & Hb).
    unfold build_kg. rewrite (bind_ok _ _ _ Hb).
    replace (Z.of_nat (length pre) + 1)%Z with (Z.of_nat (length (pre ++ [p])))
      by (rewrite length_app; simpl; lia).
    replace (pre ++ p :: post) with ((pre ++ [p]) ++ post)
      by (now rewrite <- app_assoc).
    now apply IH.
Qed.

Lemma call_clear_completes {P} (eng : ChatEngine OracleState P) (b : bool)
    (w : Wc) :
  answers eng ->
  exists w', (if b then call_clear eng else ret tt) w = (Ok tt, w').
Proof.
  intros [_ Hclear]. destruct b; [|eexists; reflexivity].
  unfold call_clear, bind, log, on_oracle. cbn [oracle store trace].
  destruct (Hclear (oracle w)) as (os' & ->). eexists. reflexivity.
Qed.

(** X18. When both engines answer every call, a run of the orchestrator
    with the prompting classes of the repository always completes: whatever
    text the models return, no parsing, indexing or prompt building step
    raises. *)
Theorem workflow_completes_when_engines_answer (text : string)
    (delete_models_after_use : bool) (w : Wc) :
  exists w',
    workflow ops split_text be xe text delete_models_after_use w = (Ok tt, w').
Proof.
  unfold workflow.
  destruct (extract_loop_completes (split_text text) [] w)
    as (ext & w1 & Hx & Hlen & Hall).
  rewrite (bind_ok _ _ _ Hx). cbn [app].
  destruct (call_clear_completes delete_models_after_use w1 xe_answers)
    as (w2 & Hc1).
  rewrite (bind_ok _ _ _ Hc1).
  destruct (@build_loop_completes (split_text text) [] ext w2 Hlen Hall)
    as (w3 & Hb).
  cbn [length app Z.of_nat] in Hb. rewrite (bind_ok _ _ _ Hb).
  apply call_clear_completes, be_answers.
Qed.

End Completion.

Lemma workflow_completes_when_engines_answer_witness :
  exists w',
    workflow Stub.kg_ops Stub.split_lines
      (Stub.echo_engine "builder" (builder_prompting ""))
      (Stub.echo_engine "extractor" (extractor_prompting ""))
      ("first (a:PERSON, knows, b:PERSON)" +++ nl +++ "second passage") true
      {| oracle := tt; store := Stub.empty_kg Stub.types; trace := [] |}
    = (Ok tt, w').
Proof.
  apply (workflow_completes_when_engines_answer Stub.kg_ops Stub.split_lines
           (be := Stub.echo_engine "builder" (builder_prompting ""))
           (xe := Stub.echo_engine "extractor" (extractor_prompting ""))
           (sp_extractor := "") (sp_builder := "")).
  - split; intros; eexists _; try eexists; reflexivity.
  - split; intros; eexists _; try eexists; reflexivity.
  - reflexivity.
  - reflexivity.
Defined.

(** ** Dropping a client that was never built *)

Section ClearCaches.
Context {OracleState Store : Type}.
Variable ops : RelationsOps Store.
Variable send_message : string -> OracleState -> pyres string * OracleState.
Variable client_built : OracleState -> bool.
Variable del_client : OracleState -> OracleState.
Variable split_text : string -> list string.
Variable be : ChatEngine OracleState BuilderPromptingI.


End ClearCaches.

